(** * Linear congruential generators of [08-extension-types.ipynb]

    The notebook defines the same generator twice: [PyLCG], a plain Python
    class working on unbounded integers, and [CyLCG], a Cython extension type
    whose four attributes are C [long]s (8 bytes each, as the notebook's
    memory-footprint cell counts them) and whose [_advance] is compiled with
    [cdivision(True)].  Both are embedded here as state-passing functions in
    an error monad; the first part of the file holds the definitions, the
    second the properties of the two classes and their comparison.  The
    notebook's third class, [CyLCGOpen], has the methods of [CyLCG] word for
    word and differs in the visibility of its attributes only. *)

From Stdlib Require Import ZArith Lia.
From stdpp Require Import gmap list strings pretty.

Local Open Scope Z_scope.

(** ** Exceptions and the error monad *)

(** What a call can end with besides a value: the Python exceptions that can
    come up, and the C-level fault of a remainder that is not defined. *)
Inductive error : Type :=
  | ValueError (msg : string)
  | ZeroDivisionError
  | OverflowError
  | NameError
  | CFault.

Inductive outcome (A : Type) : Type :=
  | Ok (v : A)
  | Raise (e : error).

Arguments Ok {A} v.
Arguments Raise {A} e.

Definition bind {A B : Type} (o : outcome A) (k : A -> outcome B) : outcome B :=
  match o with
  | Ok v => k v
  | Raise e => Raise e
  end.

Notation "'let*' p ':=' o 'in' k" :=
  (bind o (fun p => k))
  (at level 10, p pattern, o at level 100, k at level 200).

(** ** Values handed back to the caller *)

(** [randint()] returns one integer, [randint(size=n)] an array.  Of an
    array the numbers in its cells are kept, as integers: a cell of a
    [float64] array that numpy builds from integers holds an integer. *)
Inductive retval : Type :=
  | RInt (v : Z)
  | RArray (vs : list Z).

(** The double nearest to an integer, ties going to the even significand
    (53 bits). *)
Definition round_half_even (n d : Z) : Z :=
  let q := n / d in
  let r := n mod d in
  if 2 * r <? d then q
  else if d <? 2 * r then q + 1
  else if Z.even q then q else q + 1.

Definition to_double (v : Z) : Z :=
  let a := Z.abs v in
  if a <? 2 ^ 53 then v
  else
    let ulp := 2 ^ (Z.log2 a - 52) in
    Z.sgn v * (round_half_even a ulp * ulp).

(** [np.asarray] of a list of Python integers.  numpy takes each integer for
    an [int64] if it fits, else for a [uint64] if it fits, else for an
    object.  A list with an object in it becomes an array of objects, a list
    of [int64]s or of [uint64]s an array of these: the integers are kept.  A
    list that has both [int64]s and [uint64]s becomes a [float64] array:
    every integer is rounded to a double. *)
Definition fits_int64 (v : Z) : bool := (- 2 ^ 63 <=? v) && (v <? 2 ^ 63).
Definition fits_uint64 (v : Z) : bool := (2 ^ 63 <=? v) && (v <? 2 ^ 64).
Definition is_object (v : Z) : bool := negb (fits_int64 v) && negb (fits_uint64 v).

Definition np_keeps_integers (vs : list Z) : bool :=
  existsb is_object vs || forallb fits_int64 vs || forallb fits_uint64 vs.

Definition np_asarray (vs : list Z) : retval :=
  RArray (if np_keeps_integers vs then vs else map to_double vs).

(** [np.asarray] of a typed memoryview [long[::1]] wraps its buffer, which
    holds [int64]s already. *)
Definition np_asarray_view (buf : list Z) : retval := RArray buf.

Definition values (r : retval) : list Z :=
  match r with
  | RInt v => [v]
  | RArray vs => vs
  end.

(** Default arguments shared by [PyLCG.__init__] and [CyLCG.__cinit__]. *)
Definition a_default : Z := 1664525.
Definition c_default : Z := 1013904223.
Definition m_default : Z := 2 ^ 32.
Definition seed_default : Z := 0.

(** ["m must be > 0, given {}".format(m)] *)
Definition m_message (m : Z) : string :=
  "m must be > 0, given " +:+ pretty m.

(** ** The pure Python class *)

(** Python's [%] on integers: the result has the sign of the divisor (which
    is what [Z.modulo] computes), and a zero divisor raises. *)
Definition py_mod (n d : Z) : outcome Z :=
  if d =? 0 then Raise ZeroDivisionError else Ok (n mod d).

Module PyLCG.

Record t : Type := Build { a : Z; c : Z; m : Z; x : Z }.

Definition set_x (self : t) (v : Z) : t :=
  {| a := a self; c := c self; m := m self; x := v |}.

Definition __init__ (a0 c0 m0 seed : Z) : outcome t :=
  if m0 <=? 0 then Raise (ValueError (m_message m0))
  else Ok {| a := a0; c := c0; m := m0; x := seed |}.

Definition _advance (self : t) : outcome (Z * t) :=
  let r := x self in
  let* v := py_mod (a self * x self + c self) (m self) in
  Ok (r, set_x self v).

(** [[self._advance() for _ in range(k)]] *)
Fixpoint comprehension (k : nat) (self : t) : outcome (list Z * t) :=
  match k with
  | O => Ok ([], self)
  | S k' =>
      let* (r, self1) := _advance self in
      let* (rs, self2) := comprehension k' self1 in
      Ok (r :: rs, self2)
  end.

(** [range(size)] is empty for a negative [size]. *)
Definition randint (self : t) (size : option Z) : outcome (retval * t) :=
  match size with
  | None =>
      let* (r, self') := _advance self in
      Ok (RInt r, self')
  | Some n =>
      let* (rs, self') := comprehension (Z.to_nat n) self in
      Ok (np_asarray rs, self')
  end.

End PyLCG.

(** ** The Cython extension type *)

(** A C [long] is 64 bits wide and signed; an [int] 32 bits. *)
Definition LONG_MIN : Z := - 2 ^ 63.
Definition LONG_MAX : Z := 2 ^ 63 - 1.
Definition INT_MIN : Z := - 2 ^ 31.
Definition INT_MAX : Z := 2 ^ 31 - 1.

(** Conversion of a Python integer to a typed argument or variable: a value
    that does not fit raises [OverflowError]. *)
Definition as_long (z : Z) : outcome Z :=
  if (LONG_MIN <=? z) && (z <=? LONG_MAX) then Ok z else Raise OverflowError.

Definition as_int (z : Z) : outcome Z :=
  if (INT_MIN <=? z) && (z <=? INT_MAX) then Ok z else Raise OverflowError.

(** Arithmetic on [long]s keeps the low 64 bits (two's complement). *)
Definition wrap_long (z : Z) : Z := (z + 2 ^ 63) mod 2 ^ 64 - 2 ^ 63.

Definition long_mul (u v : Z) : Z := wrap_long (u * v).
Definition long_add (u v : Z) : Z := wrap_long (u + v).

(** [%] under [cdivision(True)] is C's remainder: it truncates towards zero,
    so the result has the sign of the dividend ([Z.rem]).  Nothing checks the
    divisor: a zero divisor, and [LONG_MIN % -1], are faults. *)
Definition c_rem (n d : Z) : outcome Z :=
  if d =? 0 then Raise CFault
  else if (n =? LONG_MIN) && (d =? -1) then Raise CFault
  else Ok (Z.rem n d).

(** [np.empty((n,), dtype='i8')].  numpy raises [ValueError] for a dimension
    that does not fit its index type (64 bits, signed), for a negative one,
    and for one whose 8-byte cells would take more bytes than that type can
    count.  The cells of the new array hold whatever was in memory, for which
    [junk] stands.  How much memory the machine has is left out. *)
Definition np_empty (junk : Z) (n : Z) : outcome (list Z) :=
  if (n <? LONG_MIN) || (LONG_MAX <? n) then
    Raise (ValueError "Maximum allowed dimension exceeded")
  else if n <? 0 then
    Raise (ValueError "negative dimensions are not allowed")
  else if LONG_MAX <? 8 * n then
    Raise (ValueError "array is too big; `arr.size * arr.dtype.itemsize` is larger than the maximum possible size.")
  else Ok (replicate (Z.to_nat n) junk).

Module CyLCG.

Record t : Type := Build { a : Z; c : Z; m : Z; x : Z }.

Definition set_x (self : t) (v : Z) : t :=
  {| a := a self; c := c self; m := m self; x := v |}.

(** The four arguments are declared [long]: they are converted before the
    body runs. *)
Definition __cinit__ (a0 c0 m0 seed : Z) : outcome t :=
  let* a1 := as_long a0 in
  let* c1 := as_long c0 in
  let* m1 := as_long m0 in
  let* seed1 := as_long seed in
  if m1 <=? 0 then Raise (ValueError (m_message m1))
  else Ok {| a := a1; c := c1; m := m1; x := seed1 |}.

Definition _advance (self : t) : outcome (Z * t) :=
  let r := x self in
  let* v := c_rem (long_add (long_mul (a self) (x self)) (c self)) (m self) in
  Ok (r, set_x self v).

(** [for i in range(n): a[i] = self._advance()], [k] iterations being left
    and [i] the next index. *)
Fixpoint fill (k : nat) (i : nat) (buf : list Z) (self : t)
  : outcome (list Z * t) :=
  match k with
  | O => Ok (buf, self)
  | S k' =>
      let* (r, self1) := _advance self in
      fill k' (S i) (<[i := r]> buf) self1
  end.

(** The array is allocated from [size] as given, then [size] is converted
    to the [int] that bounds the loop. *)
Definition randint (junk : Z) (self : t) (size : option Z)
  : outcome (retval * t) :=
  match size with
  | None =>
      let* (r, self') := _advance self in
      Ok (RInt r, self')
  | Some sz =>
      let* buf := np_empty junk sz in
      let* n := as_int sz in
      let* (buf', self') := fill (Z.to_nat n) 0 buf self in
      Ok (np_asarray_view buf', self')
  end.

End CyLCG.

(** ** Clients: sequences of calls *)

(** A client calls [_advance()], [randint()] or [randint(size=n)] on a
    generator, any number of times and in any order. *)
Inductive call : Type :=
  | Advance
  | Randint (size : option Z).

Section Driver.

Context {G : Type}.
Variable advance : G -> outcome (Z * G).
Variable randint : G -> option Z -> outcome (retval * G).

Definition invoke (k : call) (self : G) : outcome (retval * G) :=
  match k with
  | Advance =>
      let* (r, self') := advance self in
      Ok (RInt r, self')
  | Randint size => randint self size
  end.

(** The calls are made in order; an exception ends the run. *)
Fixpoint run (ks : list call) (self : G) : outcome (list retval * G) :=
  match ks with
  | [] => Ok ([], self)
  | k :: ks' =>
      let* (r, self1) := invoke k self in
      let* (rs, self2) := run ks' self1 in
      Ok (r :: rs, self2)
  end.

End Driver.

Definition py_run : list call -> PyLCG.t -> outcome (list retval * PyLCG.t) :=
  run PyLCG._advance PyLCG.randint.

Definition cy_run (junk : Z)
  : list call -> CyLCG.t -> outcome (list retval * CyLCG.t) :=
  run CyLCG._advance (CyLCG.randint junk).

(** What a client sees of a run: the values handed back, or the exception. *)
Definition observe {G : Type} (o : outcome (list retval * G))
  : outcome (list retval) :=
  let* (rs, _) := o in Ok rs.

(** All integers a run hands back, in the order they were generated. *)
Definition outputs (rs : list retval) : list Z := flat_map values rs.

(** How many numbers a call asks for. *)
Definition demand (k : call) : nat :=
  match k with
  | Advance => 1%nat
  | Randint None => 1%nat
  | Randint (Some n) => Z.to_nat n
  end.

Definition total_demand (ks : list call) : nat :=
  foldr (fun k acc => (demand k + acc)%nat) 0%nat ks.

(** A size both classes accept: omitted, or from 0 to [INT_MAX]. *)
Definition size_ok (k : call) : Prop :=
  match k with
  | Randint (Some n) => 0 <= n <= INT_MAX
  | _ => True
  end.

(** ** Generators as objects *)

(** Several generators can be alive at once.  Each is an object of its own in
    the store, reached through a reference; a method call reads and writes
    the object its receiver refers to.  [PyLCG(...)] allocates a new object;
    a reference to nothing is an unbound name. *)
Definition py_new (a c m seed : Z) (h : gmap positive PyLCG.t)
  : outcome (positive * gmap positive PyLCG.t) :=
  let* g := PyLCG.__init__ a c m seed in
  let l := fresh (dom h) in
  Ok (l, <[l := g]> h).

Definition py_call (l : positive) (k : call) (h : gmap positive PyLCG.t)
  : outcome (retval * gmap positive PyLCG.t) :=
  match h !! l with
  | None => Raise NameError
  | Some g =>
      let* (r, g') := invoke PyLCG._advance PyLCG.randint k g in
      Ok (r, <[l := g']> h)
  end.

(** A script calls methods on any of the objects, in any interleaving, and
    records which object returned what. *)
Fixpoint py_script (p : list (positive * call)) (h : gmap positive PyLCG.t)
  : outcome (list (positive * retval) * gmap positive PyLCG.t) :=
  match p with
  | [] => Ok ([], h)
  | (l, k) :: p' =>
      let* (r, h1) := py_call l k h in
      let* (rs, h2) := py_script p' h1 in
      Ok ((l, r) :: rs, h2)
  end.

(** The entries of a script, or of its record, that concern object [l]. *)
Fixpoint on {A : Type} (l : positive) (xs : list (positive * A)) : list A :=
  match xs with
  | [] => []
  | (l', v) :: xs' => if decide (l' = l) then v :: on l xs' else on l xs'
  end.

(** Every generator alive was built by [__init__], so its modulus is
    positive. *)
Definition heap_ok (h : gmap positive PyLCG.t) : Prop :=
  map_Forall (fun _ g => 0 < PyLCG.m g) h.

(** ** The recurrence *)

(** [X_{n+1} = (a X_n + c) mod m], as the notebook introduces it. *)
Definition lcg_next (a c m x : Z) : Z := (a * x + c) mod m.

(** The state after [k] steps of a transition [f], and the first [k]
    states. *)
Fixpoint after (f : Z -> Z) (k : nat) (x : Z) : Z :=
  match k with
  | O => x
  | S k' => after f k' (f x)
  end.

Fixpoint orbit (f : Z -> Z) (k : nat) (x : Z) : list Z :=
  match k with
  | O => []
  | S k' => x :: orbit f k' (f x)
  end.

Definition in_range (m v : Z) : Prop := 0 <= v < m.

(** The transition functions of the generators. *)
Definition py_next (g : PyLCG.t) : Z -> Z :=
  lcg_next (PyLCG.a g) (PyLCG.c g) (PyLCG.m g).

Definition cy_next (g : CyLCG.t) : Z -> Z :=
  lcg_next (CyLCG.a g) (CyLCG.c g) (CyLCG.m g).

Definition default_next : Z -> Z := lcg_next a_default c_default m_default.

(** The Python generator holding the same four numbers. *)
Definition cy_to_py (g : CyLCG.t) : PyLCG.t :=
  PyLCG.Build (CyLCG.a g) (CyLCG.c g) (CyLCG.m g) (CyLCG.x g).

(** A Cython generator with the default parameters and its state in
    [[0, 2**32)]. *)
Definition cy_default (g : CyLCG.t) : Prop :=
  CyLCG.a g = a_default /\ CyLCG.c g = c_default /\ CyLCG.m g = m_default
  /\ in_range m_default (CyLCG.x g).

(** ** Transitions and replies *)

(** What one [CyLCG._advance] leaves in [x] when the remainder is defined. *)
Definition cy_step (g : CyLCG.t) (x : Z) : Z :=
  Z.rem (long_add (long_mul (CyLCG.a g) x) (CyLCG.c g)) (CyLCG.m g).

Definition in_long (z : Z) : Prop := LONG_MIN <= z <= LONG_MAX.

(** What a call hands back from state [x] under a transition [f], [arr]
    making the array of a batch, and what a sequence of calls does. *)
Definition reply (arr : list Z -> retval) (f : Z -> Z) (k : call) (x : Z)
  : retval :=
  match k with
  | Advance => RInt x
  | Randint None => RInt x
  | Randint (Some n) => arr (orbit f (Z.to_nat n) x)
  end.

Fixpoint replies (arr : list Z -> retval) (f : Z -> Z) (ks : list call)
  (x : Z) : list retval :=
  match ks with
  | [] => []
  | k :: ks' => reply arr f k x :: replies arr f ks' (after f (demand k) x)
  end.

(** A call that asks for one number, not for an array. *)
Definition unsized (k : call) : Prop :=
  match k with
  | Randint (Some _) => False
  | _ => True
  end.

(** A Python generator whose numbers all fit an [int64]: numpy keeps every
    batch as it is. *)
Definition py_exact (g : PyLCG.t) : Prop :=
  0 < PyLCG.m g <= 2 ^ 63 /\ in_long (PyLCG.x g).

(** A Cython generator on which the C expression does not overflow: nothing
    is negative, and [a*x + c] fits a [long] for the current [x] and for
    every [x] below [m]. *)
Definition cy_safe (g : CyLCG.t) : Prop :=
  0 <= CyLCG.a g /\ 0 <= CyLCG.c g /\ 0 < CyLCG.m g /\ 0 <= CyLCG.x g
  /\ CyLCG.a g * CyLCG.x g + CyLCG.c g <= LONG_MAX
  /\ CyLCG.a g * (CyLCG.m g - 1) + CyLCG.c g <= LONG_MAX.

(** ** The test cells *)

(** [arr % d] on an array works element by element, with the sign
    convention of Python's [%]. *)
Definition np_mod (r : retval) (d : Z) : retval :=
  match r with
  | RInt v => RInt (v mod d)
  | RArray vs => RArray (map (fun v => v mod d) vs)
  end.

(** [rng = PyLCG(); nums = rng.randint(size=n) % 100], which the notebook
    runs with [n = 10000] before plotting [nums] in 100 bins; and the same
    cell on [CyLCG()]. *)
Definition py_cell (n : Z) : outcome retval :=
  let* rng := PyLCG.__init__ a_default c_default m_default seed_default in
  let* (arr, _) := PyLCG.randint rng (Some n) in
  Ok (np_mod arr 100).

Definition cy_cell (junk : Z) (n : Z) : outcome retval :=
  let* rng := CyLCG.__cinit__ a_default c_default m_default seed_default in
  let* (arr, _) := CyLCG.randint junk rng (Some n) in
  Ok (np_mod arr 100).

(** ** Attributes seen from Python *)

(** The names Python code can try on an object: the four C-level attributes,
    and [Fnew name] for a name the class does not have at all, as [z] in
    [cyrng.z = 15] (not a declared attribute, not a method, not one of the
    names every object has).  [CyLCG] declares the four with a plain [cdef]:
    Python code can neither read nor write them.  [CyLCGOpen] declares [x]
    [public] and [a], [c], [m] [readonly].  An extension type has no
    dictionary to take a new name. *)
Inductive field : Type := Fa | Fc | Fm | Fx | Fnew (name : string).

Inductive attr_outcome (A : Type) : Type :=
  | Done (v : A)
  | AttributeError
  | Thrown (e : error).

Arguments Done {A} v.
Arguments AttributeError {A}.
Arguments Thrown {A} e.

Module CyLCGOpen.

(** The methods are those of [CyLCG], line for line. *)
Definition t : Type := CyLCG.t.
Definition __cinit__ := CyLCG.__cinit__.
Definition _advance := CyLCG._advance.
Definition randint := CyLCG.randint.

Definition getattr (self : t) (f : field) : attr_outcome Z :=
  match f with
  | Fa => Done (CyLCG.a self)
  | Fc => Done (CyLCG.c self)
  | Fm => Done (CyLCG.m self)
  | Fx => Done (CyLCG.x self)
  | Fnew _ => AttributeError
  end.

(** Assigning to [x] converts the value to a [long]; the other three are
    not writable. *)
Definition setattr (self : t) (f : field) (v : Z) : attr_outcome t :=
  match f with
  | Fx =>
      match as_long v with
      | Ok v' => Done (CyLCG.set_x self v')
      | Raise e => Thrown e
      end
  | _ => AttributeError
  end.

End CyLCGOpen.

(** What Python code does with a [CyLCGOpen] object: read an attribute,
    assign to one, call a method. *)
Inductive action : Type :=
  | Get (f : field)
  | Set_ (f : field) (v : Z)
  | Do (k : call).

Inductive seen : Type :=
  | Read (v : Z)
  | Assigned
  | Returned (r : retval).

Definition open_act (junk : Z) (act : action) (self : CyLCGOpen.t)
  : attr_outcome (seen * CyLCGOpen.t) :=
  match act with
  | Get f =>
      match CyLCGOpen.getattr self f with
      | Done v => Done (Read v, self)
      | AttributeError => AttributeError
      | Thrown e => Thrown e
      end
  | Set_ f v =>
      match CyLCGOpen.setattr self f v with
      | Done self' => Done (Assigned, self')
      | AttributeError => AttributeError
      | Thrown e => Thrown e
      end
  | Do k =>
      match invoke CyLCGOpen._advance (CyLCGOpen.randint junk) k self with
      | Ok (r, self') => Done (Returned r, self')
      | Raise e => Thrown e
      end
  end.

Fixpoint open_run (junk : Z) (acts : list action) (self : CyLCGOpen.t)
  : attr_outcome (list seen * CyLCGOpen.t) :=
  match acts with
  | [] => Done ([], self)
  | act :: acts' =>
      match open_act junk act self with
      | Done (s, self1) =>
          match open_run junk acts' self1 with
          | Done (ss, self2) => Done (s :: ss, self2)
          | AttributeError => AttributeError
          | Thrown e => Thrown e
          end
      | AttributeError => AttributeError
      | Thrown e => Thrown e
      end
  end.

(** What construction of a [CyLCGOpen] establishes and every action keeps:
    the parameters it was given, a positive modulus, a state that fits. *)
Definition open_inv (a c m : Z) (g : CyLCGOpen.t) : Prop :=
  CyLCG.a g = a /\ CyLCG.c g = c /\ CyLCG.m g = m
  /\ 0 < m <= LONG_MAX /\ in_long (CyLCG.x g).


(** * Properties *)

(** ** Concrete runs *)

Example py_advance_42 :
  PyLCG._advance (PyLCG.Build a_default c_default m_default 42)
  = Ok (42, PyLCG.Build a_default c_default m_default 1083814273).
Proof. reflexivity. Qed.

Example cy_advance_42 :
  CyLCG._advance (CyLCG.Build a_default c_default m_default 42)
  = Ok (42, CyLCG.Build a_default c_default m_default 1083814273).
Proof. reflexivity. Qed.

Example cy_randint_3 :
  CyLCG.randint 7 (CyLCG.Build a_default c_default m_default 42) (Some 3)
  = Ok (RArray [42; 1083814273; 378494188],
        CyLCG.Build a_default c_default m_default 2479403867).
Proof. reflexivity. Qed.

Example py_randint_negative_size :
  PyLCG.randint (PyLCG.Build a_default c_default m_default 42) (Some (-1))
  = Ok (RArray [], PyLCG.Build a_default c_default m_default 42).
Proof. reflexivity. Qed.

Example cy_cinit_overflow :
  CyLCG.__cinit__ a_default c_default (2 ^ 63) 0 = Raise OverflowError.
Proof. reflexivity. Qed.

(** What numpy makes of lists of integers: kept when they all fit an
    [int64], or all are [uint64]s, or one of them is an object; rounded to
    doubles when [int64]s and [uint64]s are mixed. *)
Example np_asarray_int64 :
  np_asarray [1; 7806831264735756412] = RArray [1; 7806831264735756412].
Proof. reflexivity. Qed.

Example np_asarray_uint64 :
  np_asarray [9396908728118811419; 2 ^ 64 - 1]
  = RArray [9396908728118811419; 2 ^ 64 - 1].
Proof. reflexivity. Qed.

Example np_asarray_object : np_asarray [1; 2 ^ 64] = RArray [1; 2 ^ 64].
Proof. reflexivity. Qed.

Example np_asarray_mixed :
  np_asarray [1; 7806831264735756412; 9396908728118811419]
  = RArray [1; 7806831264735756288; 9396908728118810624].
Proof. reflexivity. Qed.

Example np_asarray_empty : np_asarray [] = RArray [].
Proof. reflexivity. Qed.

Example py_randint_rounds :
  PyLCG.randint (PyLCG.Build 1 (2 ^ 64 - 1) (2 ^ 64) 0) (Some 3)
  = Ok (RArray [0; 2 ^ 64; 2 ^ 64],
        PyLCG.Build 1 (2 ^ 64 - 1) (2 ^ 64) (2 ^ 64 - 3)).
Proof. reflexivity. Qed.

(** Dimensions that numpy refuses. *)
Example np_empty_negative_one :
  np_empty 0 (-1) = Raise (ValueError "negative dimensions are not allowed").
Proof. reflexivity. Qed.

Example np_empty_huge :
  np_empty 0 (2 ^ 63) = Raise (ValueError "Maximum allowed dimension exceeded").
Proof. reflexivity. Qed.

Example cy_randint_huge :
  CyLCG.randint 0 (CyLCG.Build a_default c_default m_default 0) (Some (2 ^ 63))
  = Raise (ValueError "Maximum allowed dimension exceeded").
Proof. reflexivity. Qed.

(** ** Iterating a transition *)

Section OrbitFacts.

Variable f : Z -> Z.

Lemma after_add j k x : after f (j + k) x = after f k (after f j x).
Proof. revert x. induction j as [|j IH]; intros x; simpl; [done | apply IH]. Qed.

Lemma after_S_r k x : after f (S k) x = f (after f k x).
Proof.
  replace (S k) with (k + 1)%nat by lia. by rewrite after_add.
Qed.

Lemma orbit_add j k x :
  orbit f (j + k) x = orbit f j x ++ orbit f k (after f j x).
Proof.
  revert x. induction j as [|j IH]; intros x; simpl; [done |].
  by rewrite IH.
Qed.

Lemma orbit_length k x : length (orbit f k x) = k.
Proof.
  revert x. induction k as [|k IH]; intros x; simpl; [done | by rewrite IH].
Qed.

Lemma orbit_head k x v : head (orbit f k x) = Some v -> v = x.
Proof. destruct k; simpl; congruence. Qed.

Lemma orbit_lookup_S k x i v w :
  orbit f k x !! i = Some v -> orbit f k x !! S i = Some w -> w = f v.
Proof.
  revert x i. induction k as [|k IH]; intros x i; simpl; [done |].
  destruct i as [|i]; simpl.
  - intros [= <-]. destruct k; simpl; [done | by intros [= <-]].
  - apply IH.
Qed.

Lemma orbit_last k x : last (orbit f (S k) x) = Some (after f k x).
Proof.
  revert x. induction k as [|k IH]; intros x; [done |].
  change (orbit f (S (S k)) x) with (x :: orbit f (S k) (f x)).
  rewrite last_cons, IH. done.
Qed.

(** A property the start has and every step establishes holds all along. *)
Lemma orbit_Forall (P : Z -> Prop) k x :
  P x -> (forall y, P (f y)) -> Forall P (orbit f k x).
Proof.
  intros Hx Hf. revert x Hx.
  induction k as [|k IH]; intros x Hx; simpl; constructor; auto.
Qed.

Lemma after_inv (P : Z -> Prop) k x :
  P x -> (forall y, P (f y)) -> P (after f k x).
Proof.
  intros Hx Hf. revert x Hx.
  induction k as [|k IH]; intros x Hx; simpl; auto.
Qed.

(** After a step or more, the start does not matter. *)
Lemma after_pos (P : Z -> Prop) k x :
  (forall y, P (f y)) -> k <> 0%nat -> P (after f k x).
Proof.
  intros Hf Hk. destruct k as [|k]; [done |].
  simpl. by apply after_inv.
Qed.

Section Replies.

Variable arr : list Z -> retval.

Lemma replies_singles k x :
  replies arr f (replicate k (Randint None)) x = map RInt (orbit f k x).
Proof.
  revert x. induction k as [|k IH]; intros x; simpl; [done | by rewrite IH].
Qed.

Lemma replies_length ks x : length (replies arr f ks x) = length ks.
Proof.
  revert x. induction ks as [|k ks IH]; intros x; simpl; [done | by rewrite IH].
Qed.

(** Calls that ask for one number make no array. *)
Lemma replies_unsized (arr' : list Z -> retval) ks x :
  Forall unsized ks -> replies arr f ks x = replies arr' f ks x.
Proof.
  intros Hks. revert x.
  induction Hks as [|k ks Hk Hks IH]; intros x; simpl; [done |].
  rewrite IH. f_equal. by destruct k as [|[n|]].
Qed.

(** The integers that single calls hand back are states: the first state,
    or one that a step has produced. *)
Lemma replies_ints (P : Z -> Prop) ks x v :
  (forall vs, exists ws, arr vs = RArray ws) ->
  (forall y, P (f y)) ->
  RInt v ∈ replies arr f ks x ->
  v = x \/ P v.
Proof.
  intros Harr Hf. revert x.
  induction ks as [|k ks IH]; intros x Hv; simpl in Hv.
  - by apply elem_of_nil in Hv.
  - apply elem_of_cons in Hv as [Hv|Hv].
    + destruct k as [|[n|]]; simpl in Hv.
      * left. congruence.
      * destruct (Harr (orbit f (Z.to_nat n) x)) as [ws Hws]. congruence.
      * left. congruence.
    + destruct (IH _ Hv) as [Hv'|HP]; [| by right]. subst v.
      destruct (Nat.eq_dec (demand k) 0%nat) as [E|E].
      * left. by rewrite E.
      * right. by apply after_pos.
Qed.

Lemma replies_head_int ks x v :
  (forall vs, exists ws, arr vs = RArray ws) ->
  head (replies arr f ks x) = Some (RInt v) -> v = x.
Proof.
  intros Harr. destruct ks as [|[|[n|]] ks]; simpl; try done; try congruence.
  destruct (Harr (orbit f (Z.to_nat n) x)) as [ws ->]. done.
Qed.

End Replies.

(** Two transitions that agree wherever the state can be give the same
    orbits. *)
Section Agree.

Variable h : Z -> Z.
Variable P : Z -> Prop.
Hypothesis agree : forall y, P y -> f y = h y.
Hypothesis stable : forall y, P y -> P (f y).

Lemma after_stable k x : P x -> P (after f k x).
Proof.
  revert x. induction k as [|k IH]; intros x Hx; simpl; auto.
Qed.

Lemma after_agree k x : P x -> after f k x = after h k x.
Proof.
  revert x. induction k as [|k IH]; intros x Hx; simpl; [done |].
  rewrite <- (agree x Hx). auto.
Qed.

Lemma orbit_agree k x : P x -> orbit f k x = orbit h k x.
Proof.
  revert x. induction k as [|k IH]; intros x Hx; simpl; [done |].
  rewrite <- (agree x Hx). f_equal. auto.
Qed.

Lemma replies_agree arr ks x :
  P x -> replies arr f ks x = replies arr h ks x.
Proof.
  revert x. induction ks as [|k ks IH]; intros x Hx; simpl; [done |].
  rewrite <- (after_agree (demand k) x Hx).
  rewrite IH by (by apply after_stable). f_equal.
  destruct k as [|[n|]]; simpl; [done | | done].
  by rewrite orbit_agree.
Qed.

End Agree.

End OrbitFacts.

Lemma total_demand_singles k : total_demand (replicate k (Randint None)) = k.
Proof. induction k as [|k IH]; simpl; [done | by rewrite IH]. Qed.

Lemma outputs_replies f ks x :
  outputs (replies RArray f ks x) = orbit f (total_demand ks) x.
Proof.
  revert x. induction ks as [|k ks IH]; intros x; [done |].
  unfold outputs in *. simpl. rewrite IH, orbit_add.
  by destruct k as [|[n|]].
Qed.

Lemma lcg_next_in_range a c m y : 0 < m -> in_range m (lcg_next a c m y).
Proof. intros Hm. unfold in_range, lcg_next. apply Z.mod_pos_bound. lia. Qed.

Lemma default_next_in_range y : in_range m_default (default_next y).
Proof. apply lcg_next_in_range. reflexivity. Qed.

Create HintDb lcg.

#[local] Hint Resolve lcg_next_in_range default_next_in_range : lcg.

(** ** Arrays made of Python integers *)

Lemma fits_int64_in_long v : fits_int64 v = true <-> in_long v.
Proof.
  unfold fits_int64, in_long, LONG_MIN, LONG_MAX.
  rewrite andb_true_iff, Z.leb_le, Z.ltb_lt. lia.
Qed.

(** Integers that all fit an [int64] are kept as they are. *)
Lemma np_asarray_in_long vs : Forall in_long vs -> np_asarray vs = RArray vs.
Proof.
  intros Hvs. unfold np_asarray, np_keeps_integers.
  assert (forallb fits_int64 vs = true) as ->.
  { apply forallb_forall. intros v Hv. apply fits_int64_in_long.
    rewrite Forall_forall in Hvs. apply Hvs. by apply list_elem_of_In. }
  by rewrite orb_true_r.
Qed.

Lemma np_asarray_is_array vs : exists ws, np_asarray vs = RArray ws.
Proof. unfold np_asarray. eauto. Qed.

Lemma np_asarray_length vs : length (values (np_asarray vs)) = length vs.
Proof.
  unfold np_asarray. simpl.
  destruct (np_keeps_integers vs); [done | by rewrite length_map].
Qed.


(** When the state fits an [int64] and every step keeps it so, the arrays of
    a run hold the integers generated. *)
Lemma replies_in_long f ks x :
  in_long x -> (forall y, in_long (f y)) ->
  replies np_asarray f ks x = replies RArray f ks x.
Proof.
  intros Hx Hf. revert x Hx.
  induction ks as [|k ks IH]; intros x Hx; simpl; [done |].
  rewrite IH by (by apply after_inv). f_equal.
  destruct k as [|[n|]]; simpl; [done | | done].
  apply np_asarray_in_long. by apply orbit_Forall.
Qed.

(** ** What the Python methods compute *)

Lemma bind_Ok {A B} (v : A) (k : A -> outcome B) : bind (Ok v) k = k v.
Proof. reflexivity. Qed.

Lemma py_init_Ok a c m seed :
  0 < m -> PyLCG.__init__ a c m seed = Ok (PyLCG.Build a c m seed).
Proof.
  intros Hm. unfold PyLCG.__init__.
  destruct (Z.leb_spec m 0); [lia | reflexivity].
Qed.

Lemma py_init_Raise a c m seed :
  m <= 0 -> PyLCG.__init__ a c m seed = Raise (ValueError (m_message m)).
Proof.
  intros Hm. unfold PyLCG.__init__.
  destruct (Z.leb_spec m 0); [reflexivity | lia].
Qed.

Lemma py_init_inv a c m seed g :
  PyLCG.__init__ a c m seed = Ok g -> g = PyLCG.Build a c m seed /\ 0 < m.
Proof.
  unfold PyLCG.__init__. destruct (Z.leb_spec m 0) as [Hle|Hgt]; [done |].
  intros [= <-]. done.
Qed.

Lemma py_advance_Ok g :
  PyLCG.m g <> 0 ->
  PyLCG._advance g = Ok (PyLCG.x g, PyLCG.set_x g (py_next g (PyLCG.x g))).
Proof.
  intros Hm. unfold PyLCG._advance, py_mod.
  destruct (Z.eqb_spec (PyLCG.m g) 0) as [E|_]; [contradiction | reflexivity].
Qed.

Lemma py_set_x_same g : PyLCG.set_x g (PyLCG.x g) = g.
Proof. by destruct g. Qed.

Lemma py_comprehension_Ok k g :
  PyLCG.m g <> 0 ->
  PyLCG.comprehension k g
  = Ok (orbit (py_next g) k (PyLCG.x g),
        PyLCG.set_x g (after (py_next g) k (PyLCG.x g))).
Proof.
  intros Hm. revert g Hm.
  induction k as [|k IH]; intros g Hm; simpl.
  - by rewrite py_set_x_same.
  - rewrite py_advance_Ok by done. rewrite bind_Ok.
    rewrite IH by done. reflexivity.
Qed.

(** A call hands back its reply and moves [x] as many steps as it asked
    numbers for. *)
Lemma py_invoke_reply k g :
  PyLCG.m g <> 0 ->
  invoke PyLCG._advance PyLCG.randint k g
  = Ok (reply np_asarray (py_next g) k (PyLCG.x g),
        PyLCG.set_x g (after (py_next g) (demand k) (PyLCG.x g))).
Proof.
  intros Hm. destruct k as [|[n|]]; unfold invoke, PyLCG.randint.
  - by rewrite py_advance_Ok.
  - by rewrite py_comprehension_Ok.
  - by rewrite py_advance_Ok.
Qed.

Lemma py_invoke_Ok k g :
  PyLCG.m g <> 0 ->
  exists r,
    invoke PyLCG._advance PyLCG.randint k g
    = Ok (r, PyLCG.set_x g (after (py_next g) (demand k) (PyLCG.x g)))
    /\ r = reply np_asarray (py_next g) k (PyLCG.x g).
Proof.
  intros Hm. eexists. split; [by apply py_invoke_reply | done].
Qed.

Lemma py_run_replies ks g :
  PyLCG.m g <> 0 ->
  py_run ks g
  = Ok (replies np_asarray (py_next g) ks (PyLCG.x g),
        PyLCG.set_x g (after (py_next g) (total_demand ks) (PyLCG.x g))).
Proof.
  intros Hm. revert g Hm.
  induction ks as [|k ks IH]; intros g Hm; unfold py_run in *.
  - simpl. by rewrite py_set_x_same.
  - cbn [run]. rewrite py_invoke_reply by done. rewrite bind_Ok.
    rewrite IH by done. simpl. by rewrite after_add.
Qed.

Lemma py_run_Ok ks g :
  PyLCG.m g <> 0 ->
  exists rs,
    py_run ks g
    = Ok (rs, PyLCG.set_x g (after (py_next g) (total_demand ks) (PyLCG.x g)))
    /\ rs = replies np_asarray (py_next g) ks (PyLCG.x g).
Proof.
  intros Hm. eexists. split; [by apply py_run_replies | done].
Qed.

(** [k] calls of [randint()] in a row. *)
Lemma py_run_singles k g :
  PyLCG.m g <> 0 ->
  py_run (replicate k (Randint None)) g
  = Ok (map RInt (orbit (py_next g) k (PyLCG.x g)),
        PyLCG.set_x g (after (py_next g) k (PyLCG.x g))).
Proof.
  intros Hm. rewrite py_run_replies by done.
  by rewrite replies_singles, total_demand_singles.
Qed.

(** With a modulus of at most [2**63] every number generated fits an
    [int64]. *)
Lemma py_next_in_long g y : 0 < PyLCG.m g <= 2 ^ 63 -> in_long (py_next g y).
Proof.
  intros Hm.
  pose proof (lcg_next_in_range (PyLCG.a g) (PyLCG.c g) (PyLCG.m g) y (proj1 Hm)) as Hr.
  unfold py_next, in_range, in_long, LONG_MIN, LONG_MAX in *. lia.
Qed.

Lemma py_replies_exact g ks :
  py_exact g ->
  replies np_asarray (py_next g) ks (PyLCG.x g)
  = replies RArray (py_next g) ks (PyLCG.x g).
Proof.
  intros [Hm Hx]. apply replies_in_long; [done |].
  intros y. by apply py_next_in_long.
Qed.

Lemma py_run_exact ks g :
  py_exact g ->
  py_run ks g
  = Ok (replies RArray (py_next g) ks (PyLCG.x g),
        PyLCG.set_x g (after (py_next g) (total_demand ks) (PyLCG.x g))).
Proof.
  intros Hg. rewrite py_run_replies by (destruct Hg; lia).
  by rewrite py_replies_exact.
Qed.

Lemma py_randint_exact g n :
  py_exact g ->
  PyLCG.randint g (Some n)
  = Ok (RArray (orbit (py_next g) (Z.to_nat n) (PyLCG.x g)),
        PyLCG.set_x g (after (py_next g) (Z.to_nat n) (PyLCG.x g))).
Proof.
  intros [Hm Hx]. unfold PyLCG.randint.
  rewrite py_comprehension_Ok by lia. rewrite bind_Ok.
  rewrite np_asarray_in_long; [done |].
  apply orbit_Forall; [done |]. intros y. by apply py_next_in_long.
Qed.

(** ** Range of the values a Python generator returns *)

(** C1, as stated, fails: [PyLCG(1, 0, 5, 7)] has [m > 0], and its first
    [_advance()] returns the seed 7, which is not in [[0, 5)]. *)
Lemma py_first_output_out_of_range :
  ~ (forall a c m seed g ks rs g',
        m > 0 ->
        PyLCG.__init__ a c m seed = Ok g ->
        py_run ks g = Ok (rs, g') ->
        Forall (in_range m) (outputs rs)).
Proof.
  intros H.
  specialize (H 1 0 5 7 (PyLCG.Build 1 0 5 7) [Advance]
                [RInt 7] (PyLCG.Build 1 0 5 2)).
  assert (Hall : Forall (in_range 5) (outputs [RInt 7])).
  { apply H; [lia | reflexivity | reflexivity]. }
  inversion Hall as [|v vs Hv _]; subst.
  unfold in_range in Hv. lia.
Qed.

(** C1, amended: for every construction [PyLCG(a, c, m, seed)] with [m > 0]
    and every sequence of [_advance()]/[randint()] calls, the run succeeds;
    every integer that [_advance()] or [randint()] hands back is the seed
    (the first number generated, handed back unreduced) or lies in
    [[0, m)]; and when no call asks for an array, or when [m <= 2**63] and
    the seed fits an [int64] (so that numpy keeps the integers of every
    array), the first value returned is the seed and every value returned
    after the first lies in [[0, m)]. *)
Theorem py_outputs_after_first_in_range a c m seed ks :
  0 < m ->
  exists g rs g',
    PyLCG.__init__ a c m seed = Ok g
    /\ py_run ks g = Ok (rs, g')
    /\ (forall v, RInt v ∈ rs -> v = seed \/ in_range m v)
    /\ (forall v, head rs = Some (RInt v) -> v = seed)
    /\ (Forall unsized ks \/ (m <= 2 ^ 63 /\ in_long seed) ->
        (forall v, head (outputs rs) = Some v -> v = seed)
        /\ Forall (in_range m) (tail (outputs rs))).
Proof.
  intros Hm.
  set (g := PyLCG.Build a c m seed).
  assert (Hstep : forall y, in_range m (py_next g y))
    by (intros y; by apply lcg_next_in_range).
  eexists g, _, _.
  split; [by apply py_init_Ok |].
  split; [apply py_run_replies; simpl; lia |].
  change (PyLCG.x g) with seed.
  split; [| split].
  - intros v Hv.
    apply (replies_ints _ np_asarray (in_range m) ks seed v
             np_asarray_is_array Hstep Hv).
  - intros v Hv. apply (replies_head_int _ _ _ _ _ np_asarray_is_array Hv).
  - intros Hexact.
    assert (replies np_asarray (py_next g) ks seed
            = replies RArray (py_next g) ks seed) as ->.
    { destruct Hexact as [Hks|[Hle Hseed]].
      - by apply replies_unsized.
      - apply (py_replies_exact g). split; [simpl; lia | done]. }
    rewrite outputs_replies. split.
    + intros v Hv. by apply orbit_head in Hv.
    + destruct (total_demand ks) as [|k]; simpl; [constructor |].
      by apply orbit_Forall.
Qed.

Lemma py_outputs_after_first_in_range_witness :
  exists g rs g',
    PyLCG.__init__ 1 0 5 7 = Ok g
    /\ py_run [Advance; Randint (Some 2)] g = Ok (rs, g')
    /\ (forall v, RInt v ∈ rs -> v = 7 \/ in_range 5 v)
    /\ (forall v, head rs = Some (RInt v) -> v = 7)
    /\ (Forall unsized [Advance; Randint (Some 2)]
        \/ (5 <= 2 ^ 63 /\ in_long 7) ->
        (forall v, head (outputs rs) = Some v -> v = 7)
        /\ Forall (in_range 5) (tail (outputs rs))).
Proof.
  apply (py_outputs_after_first_in_range 1 0 5 7 [Advance; Randint (Some 2)]).
  lia.
Defined.




(** ** The contract of the Python methods *)

(** C2, as stated, fails: the second value of the batch is not 1084822493. *)
Lemma py_batch_of_seed_42_second_value :
  ~ (exists g v3 g',
        PyLCG.__init__ 1664525 1013904223 (2 ^ 32) 42 = Ok g
        /\ PyLCG.randint g (Some 3) = Ok (RArray [42; 1084822493; v3], g')).
Proof.
  intros (g & v3 & g' & Hinit & Hbatch).
  vm_compute in Hinit. injection Hinit as <-.
  vm_compute in Hbatch. discriminate Hbatch.
Qed.

(** C2, amended: for the generator built with a=1664525, c=1013904223,
    m=2**32 and seed=42, [randint(size=3)] returns three values: 42, then
    (1664525*42+1013904223) mod 2**32 = 1083814273, then the recurrence
    applied to that value, 378494188. *)
Theorem py_batch_of_seed_42 :
  exists g g',
    PyLCG.__init__ 1664525 1013904223 (2 ^ 32) 42 = Ok g
    /\ PyLCG.randint g (Some 3) = Ok (RArray [42; 1083814273; 378494188], g')
    /\ (1664525 * 42 + 1013904223) mod 2 ^ 32 = 1083814273
    /\ lcg_next 1664525 1013904223 (2 ^ 32) 1083814273 = 378494188.
Proof.
  exists (PyLCG.Build 1664525 1013904223 (2 ^ 32) 42),
         (PyLCG.Build 1664525 1013904223 (2 ^ 32) 2479403867).
  repeat split; reflexivity.
Qed.

(** C3: with the default parameters and seed 0 the first value returned, by
    [_advance()] as by [randint()], is 0 and the second is 1013904223; and
    whatever the generator, a call returns [x] as it was before the call and
    leaves [(a*x + c) mod m] in [x]. *)
Theorem py_advance_returns_then_updates :
  (exists g g1 g2,
      PyLCG.__init__ a_default c_default m_default 0 = Ok g
      /\ PyLCG._advance g = Ok (0, g1)
      /\ PyLCG._advance g1 = Ok (1013904223, g2)
      /\ PyLCG.randint g None = Ok (RInt 0, g1)
      /\ PyLCG.randint g1 None = Ok (RInt 1013904223, g2))
  /\ (forall g,
        PyLCG.m g <> 0 ->
        let x' := (PyLCG.a g * PyLCG.x g + PyLCG.c g) mod PyLCG.m g in
        let g' := PyLCG.Build (PyLCG.a g) (PyLCG.c g) (PyLCG.m g) x' in
        PyLCG._advance g = Ok (PyLCG.x g, g')
        /\ PyLCG.randint g None = Ok (RInt (PyLCG.x g), g')).
Proof.
  split.
  - exists (PyLCG.Build a_default c_default m_default 0),
           (PyLCG.Build a_default c_default m_default 1013904223),
           (PyLCG.Build a_default c_default m_default 1196435762).
    repeat split; reflexivity.
  - intros g Hm. simpl. unfold PyLCG.randint.
    rewrite py_advance_Ok by done. split; reflexivity.
Qed.

Lemma py_advance_returns_then_updates_witness :
  PyLCG._advance (PyLCG.Build 3 (-1) 7 4) = Ok (4, PyLCG.Build 3 (-1) 7 4)
  /\ PyLCG.randint (PyLCG.Build 3 (-1) 7 5) None
     = Ok (RInt 5, PyLCG.Build 3 (-1) 7 0).
Proof.
  split.
  - apply (proj2 py_advance_returns_then_updates (PyLCG.Build 3 (-1) 7 4)).
    simpl. lia.
  - apply (proj2 py_advance_returns_then_updates (PyLCG.Build 3 (-1) 7 5)).
    simpl. lia.
Defined.

(** C4, as stated, fails: with [a = 6364136223846793005],
    [c = 1442695040888963407], [m = 2**64] and seed 1, three calls of
    [randint()] return 1, 7806831264735756412 and 9396908728118811419; the
    last does not fit an [int64], numpy stores the batch of three as
    [float64], and [randint(size=3)] holds 7806831264735756288 in second
    place. *)
Lemma py_batch_differs_from_singles :
  ~ (forall a c m seed g N vs g',
        PyLCG.__init__ a c m seed = Ok g ->
        0 <= N ->
        PyLCG.randint g (Some N) = Ok (RArray vs, g') ->
        py_run (replicate (Z.to_nat N) (Randint None)) g
        = Ok (map RInt vs, g')).
Proof.
  intros H.
  specialize (H 6364136223846793005 1442695040888963407 (2 ^ 64) 1
                (PyLCG.Build 6364136223846793005 1442695040888963407 (2 ^ 64) 1)
                3
                [1; 7806831264735756288; 9396908728118810624]
                (PyLCG.Build 6364136223846793005 1442695040888963407 (2 ^ 64)
                   11960119808228829710)).
  assert (Hrun : py_run (replicate (Z.to_nat 3) (Randint None))
                   (PyLCG.Build 6364136223846793005 1442695040888963407 (2 ^ 64) 1)
                 = Ok (map RInt [1; 7806831264735756288; 9396908728118810624],
                       PyLCG.Build 6364136223846793005 1442695040888963407 (2 ^ 64)
                         11960119808228829710)).
  { apply H; [reflexivity | lia |]. vm_compute. reflexivity. }
  vm_compute in Hrun. discriminate Hrun.
Qed.

(** C4, amended: for every generator state with [m <> 0] and every integer
    [N >= 0], [randint(size=N)] returns exactly [N] values and leaves the
    generator in the state that [N] calls of [randint()] made one after the
    other from the same state leave it in; the array is what numpy makes of
    the [N] values of these calls, in their order, and it holds these very
    values whenever they all fit an [int64], as they do when [m <= 2**63]
    and [x] fits; nothing is returned for [N = 0]. *)
Theorem py_batch_is_repeated_single g N :
  0 <= N ->
  PyLCG.m g <> 0 ->
  exists vs ws g',
    PyLCG.randint g (Some N) = Ok (RArray vs, g')
    /\ py_run (replicate (Z.to_nat N) (Randint None)) g = Ok (map RInt ws, g')
    /\ Z.of_nat (length vs) = N
    /\ Z.of_nat (length ws) = N
    /\ np_asarray ws = RArray vs
    /\ (Forall in_long ws -> vs = ws)
    /\ (py_exact g -> vs = ws)
    /\ (N = 0 -> vs = [] /\ g' = g).
Proof.
  intros HN Hm.
  set (ws := orbit (py_next g) (Z.to_nat N) (PyLCG.x g)).
  destruct (np_asarray_is_array ws) as [vs Hvs].
  exists vs, ws, (PyLCG.set_x g (after (py_next g) (Z.to_nat N) (PyLCG.x g))).
  assert (Hlen : length vs = length ws).
  { rewrite <- (np_asarray_length ws), Hvs. done. }
  assert (Hin : Forall in_long ws -> vs = ws).
  { intros Hws. rewrite (np_asarray_in_long ws Hws) in Hvs. congruence. }
  split; [| split; [| split; [| split; [| split; [| split; [| split]]]]]].
  - unfold PyLCG.randint. rewrite py_comprehension_Ok by done.
    fold ws. by rewrite bind_Ok, Hvs.
  - by apply py_run_singles.
  - rewrite Hlen. unfold ws. rewrite orbit_length. lia.
  - unfold ws. rewrite orbit_length. lia.
  - done.
  - done.
  - intros [Hmg Hx]. apply Hin. apply orbit_Forall; [done |].
    intros y. by apply py_next_in_long.
  - intros ->. split; [| by rewrite py_set_x_same].
    destruct vs; [done | simpl in Hlen; discriminate Hlen].
Qed.

Lemma py_batch_is_repeated_single_witness :
  exists vs ws g',
    PyLCG.randint (PyLCG.Build 5 3 16 7) (Some 4) = Ok (RArray vs, g')
    /\ py_run (replicate (Z.to_nat 4) (Randint None)) (PyLCG.Build 5 3 16 7)
       = Ok (map RInt ws, g')
    /\ Z.of_nat (length vs) = 4
    /\ Z.of_nat (length ws) = 4
    /\ np_asarray ws = RArray vs
    /\ (Forall in_long ws -> vs = ws)
    /\ (py_exact (PyLCG.Build 5 3 16 7) -> vs = ws)
    /\ (4 = 0 -> vs = [] /\ g' = PyLCG.Build 5 3 16 7).
Proof.
  apply (py_batch_is_repeated_single (PyLCG.Build 5 3 16 7) 4).
  - lia.
  - simpl. lia.
Defined.

(** With a zero modulus (which [__init__] never stores) the batch and the
    first of the single calls stop on the same exception. *)
Lemma py_zero_modulus_raises g N :
  0 < N ->
  PyLCG.m g = 0 ->
  PyLCG.randint g (Some N) = Raise ZeroDivisionError
  /\ py_run (replicate (Z.to_nat N) (Randint None)) g = Raise ZeroDivisionError.
Proof.
  intros HN Hm.
  destruct (Z.to_nat N) as [|k] eqn:Hk; [lia |].
  unfold PyLCG.randint, py_run. rewrite Hk. simpl.
  unfold PyLCG._advance, py_mod. rewrite Hm. simpl. done.
Qed.

(** C5: construction raises the [ValueError] exactly when [m <= 0], and
    otherwise returns the generator holding [a], [c], [m] and the seed,
    whatever the signs of [a], [c] and the seed. *)
Theorem py_init_fails_iff_m_not_positive a c m seed :
  (m <= 0 -> PyLCG.__init__ a c m seed = Raise (ValueError (m_message m)))
  /\ (0 < m -> PyLCG.__init__ a c m seed = Ok (PyLCG.Build a c m seed))
  /\ ((exists e, PyLCG.__init__ a c m seed = Raise e) <-> m <= 0).
Proof.
  split; [apply py_init_Raise |]. split; [apply py_init_Ok |].
  split.
  - intros [e He]. destruct (Z.le_gt_cases m 0) as [Hle|Hgt]; [done |].
    rewrite py_init_Ok in He by done. discriminate He.
  - intros Hle. eexists. by apply py_init_Raise.
Qed.

Lemma py_init_fails_iff_m_not_positive_witness :
  PyLCG.__init__ 5 (-3) 0 1 = Raise (ValueError "m must be > 0, given 0")
  /\ PyLCG.__init__ 5 (-3) (-12) 1 = Raise (ValueError "m must be > 0, given -12")
  /\ PyLCG.__init__ (-5) (-3) 12 (-1) = Ok (PyLCG.Build (-5) (-3) 12 (-1)).
Proof.
  split; [| split].
  - apply (proj1 (py_init_fails_iff_m_not_positive 5 (-3) 0 1)). lia.
  - apply (proj1 (py_init_fails_iff_m_not_positive 5 (-3) (-12) 1)). lia.
  - apply (proj1 (proj2 (py_init_fails_iff_m_not_positive (-5) (-3) 12 (-1)))).
    lia.
Defined.

(** C8: a call changes neither [a], nor [c], nor [m]; it writes [x] only,
    once per number generated: [_advance()] leaves [(a*x + c) mod m] there,
    a batch the result of as many steps as values were asked for. *)
Theorem py_calls_write_x_only g k :
  PyLCG.m g <> 0 ->
  exists r g',
    invoke PyLCG._advance PyLCG.randint k g = Ok (r, g')
    /\ PyLCG.a g' = PyLCG.a g
    /\ PyLCG.c g' = PyLCG.c g
    /\ PyLCG.m g' = PyLCG.m g
    /\ PyLCG.x g' = after (py_next g) (demand k) (PyLCG.x g)
    /\ (k = Advance ->
        PyLCG.x g' = (PyLCG.a g * PyLCG.x g + PyLCG.c g) mod PyLCG.m g).
Proof.
  intros Hm. destruct (py_invoke_Ok k g Hm) as (r & Hr & _).
  eexists r, _. split; [exact Hr |].
  repeat split; try reflexivity.
  intros ->. reflexivity.
Qed.

Lemma py_calls_write_x_only_witness :
  exists r g',
    invoke PyLCG._advance PyLCG.randint Advance (PyLCG.Build 5 3 16 7)
    = Ok (r, g')
    /\ PyLCG.a g' = 5
    /\ PyLCG.c g' = 3
    /\ PyLCG.m g' = 16
    /\ PyLCG.x g' = after (lcg_next 5 3 16) (demand Advance) 7
    /\ (Advance = Advance -> PyLCG.x g' = (5 * 7 + 3) mod 16).
Proof.
  apply (py_calls_write_x_only (PyLCG.Build 5 3 16 7) Advance).
  simpl. lia.
Defined.

(** The value written can be the one that was there: 2 is a fixed point of
    the recurrence with [a = 1] and [c = 0]. *)
Example py_advance_fixed_point :
  PyLCG._advance (PyLCG.Build 1 0 5 2) = Ok (2, PyLCG.Build 1 0 5 2).
Proof. reflexivity. Qed.



(** ** Allocation and conversion on the Cython side *)

Lemma np_empty_Ok junk n :
  0 <= n -> 8 * n <= LONG_MAX ->
  np_empty junk n = Ok (replicate (Z.to_nat n) junk).
Proof.
  intros Hn Hfit. unfold np_empty.
  destruct (Z.ltb_spec n LONG_MIN) as [H1|_]; [unfold LONG_MIN in H1; lia |].
  destruct (Z.ltb_spec LONG_MAX n) as [H2|_]; [lia |].
  destruct (Z.ltb_spec n 0) as [H3|_]; [lia |].
  destruct (Z.ltb_spec LONG_MAX (8 * n)) as [H4|_]; [lia | reflexivity].
Qed.

Lemma np_empty_Raise junk n :
  n < 0 \/ LONG_MAX < 8 * n ->
  exists msg, np_empty junk n = Raise (ValueError msg).
Proof.
  intros Hn. unfold np_empty.
  destruct ((n <? LONG_MIN) || (LONG_MAX <? n)); [eauto |].
  destruct (Z.ltb_spec n 0) as [H3|H3]; [eauto |].
  destruct (Z.ltb_spec LONG_MAX (8 * n)) as [H4|H4]; [eauto | lia].
Qed.

Lemma np_empty_negative junk n :
  LONG_MIN <= n < 0 ->
  np_empty junk n = Raise (ValueError "negative dimensions are not allowed").
Proof.
  intros Hn. unfold np_empty.
  destruct (Z.ltb_spec n LONG_MIN) as [H1|_]; [lia |].
  destruct (Z.ltb_spec LONG_MAX n) as [H2|_]; [unfold LONG_MAX in H2; lia |].
  destruct (Z.ltb_spec n 0) as [_|H3]; [reflexivity | lia].
Qed.

Lemma as_int_Ok n : INT_MIN <= n <= INT_MAX -> as_int n = Ok n.
Proof.
  intros Hn. unfold as_int.
  destruct (Z.leb_spec INT_MIN n); [| lia].
  destruct (Z.leb_spec n INT_MAX); [reflexivity | lia].
Qed.

Lemma as_int_Raise n : INT_MAX < n -> as_int n = Raise OverflowError.
Proof.
  intros Hn. unfold as_int.
  destruct (Z.leb_spec n INT_MAX); [lia |]. by rewrite andb_false_r.
Qed.
(** ** The Cython methods when nothing overflows *)

Lemma wrap_long_fits z : LONG_MIN <= z <= LONG_MAX -> wrap_long z = z.
Proof.
  unfold LONG_MIN, LONG_MAX, wrap_long. intros Hz.
  rewrite Z.mod_small; lia.
Qed.

(** On non-negative numbers whose product and sum fit a [long], the C
    expression computes the recurrence. *)
Lemma cy_advance_no_overflow g :
  0 <= CyLCG.a g -> 0 <= CyLCG.c g -> 0 < CyLCG.m g -> 0 <= CyLCG.x g ->
  CyLCG.a g * CyLCG.x g + CyLCG.c g <= LONG_MAX ->
  CyLCG._advance g = Ok (CyLCG.x g, CyLCG.set_x g (cy_next g (CyLCG.x g))).
Proof.
  intros Ha Hc Hm Hx Hfit.
  assert (Hprod : 0 <= CyLCG.a g * CyLCG.x g) by (apply Z.mul_nonneg_nonneg; done).
  unfold CyLCG._advance, long_mul, long_add.
  rewrite (wrap_long_fits (CyLCG.a g * CyLCG.x g)) by (unfold LONG_MIN; lia).
  rewrite wrap_long_fits by (unfold LONG_MIN; lia).
  unfold c_rem.
  destruct (Z.eqb_spec (CyLCG.m g) 0) as [E|_]; [lia |].
  destruct (Z.eqb_spec (CyLCG.a g * CyLCG.x g + CyLCG.c g) LONG_MIN) as [E|_];
    [unfold LONG_MIN in E; lia |].
  simpl. rewrite Z.rem_mod_nonneg by lia. reflexivity.
Qed.

Lemma cy_default_set_x g v :
  cy_default g -> in_range m_default v -> cy_default (CyLCG.set_x g v).
Proof. intros (Ha & Hc & Hm & _) Hv. unfold cy_default. simpl. tauto. Qed.

Lemma cy_default_after g k :
  cy_default g -> cy_default (CyLCG.set_x g (after default_next k (CyLCG.x g))).
Proof.
  intros Hg. apply cy_default_set_x; [done |].
  apply after_inv; [apply Hg | auto with lcg].
Qed.

Lemma cy_advance_default g :
  cy_default g ->
  CyLCG._advance g = Ok (CyLCG.x g, CyLCG.set_x g (default_next (CyLCG.x g))).
Proof.
  intros (Ha & Hc & Hm & Hx).
  rewrite cy_advance_no_overflow.
  - unfold cy_next, default_next. by rewrite Ha, Hc, Hm.
  - rewrite Ha. done.
  - rewrite Hc. done.
  - rewrite Hm. done.
  - apply Hx.
  - rewrite Ha, Hc. unfold in_range, m_default in Hx.
    unfold a_default, c_default, LONG_MAX. lia.
Qed.

Lemma cy_set_x_same g : CyLCG.set_x g (CyLCG.x g) = g.
Proof. by destruct g. Qed.

(** The loop overwrites the cells [i], ..., [i + k - 1] of the buffer with the
    next [k] numbers, whatever they held. *)
Lemma cy_fill_default k i (buf : list Z) g :
  cy_default g ->
  length buf = (i + k)%nat ->
  CyLCG.fill k i buf g
  = Ok (take i buf ++ orbit default_next k (CyLCG.x g),
        CyLCG.set_x g (after default_next k (CyLCG.x g))).
Proof.
  revert i buf g.
  induction k as [|k IH]; intros i buf g Hg Hlen; simpl.
  - rewrite take_ge by lia. by rewrite app_nil_r, cy_set_x_same.
  - rewrite cy_advance_default by done. rewrite bind_Ok.
    rewrite IH.
    + rewrite (take_S_r _ _ (CyLCG.x g)).
      * rewrite take_insert_ge by lia. by rewrite <- app_assoc.
      * apply list_lookup_insert_eq. lia.
    + apply cy_default_set_x; auto with lcg.
    + rewrite length_insert. lia.
Qed.

Lemma cy_randint_default junk g n :
  cy_default g ->
  0 <= n <= INT_MAX ->
  CyLCG.randint junk g (Some n)
  = Ok (RArray (orbit default_next (Z.to_nat n) (CyLCG.x g)),
        CyLCG.set_x g (after default_next (Z.to_nat n) (CyLCG.x g))).
Proof.
  intros Hg Hn. unfold CyLCG.randint.
  rewrite np_empty_Ok by (unfold INT_MAX, LONG_MAX in *; lia). rewrite bind_Ok.
  rewrite as_int_Ok by (unfold INT_MIN; lia). rewrite bind_Ok.
  rewrite cy_fill_default; [reflexivity | done |].
  by rewrite length_replicate.
Qed.

Lemma cy_invoke_default junk k g :
  cy_default g ->
  size_ok k ->
  exists r,
    invoke CyLCG._advance (CyLCG.randint junk) k g
    = Ok (r, CyLCG.set_x g (after default_next (demand k) (CyLCG.x g)))
    /\ invoke PyLCG._advance PyLCG.randint k (cy_to_py g)
       = Ok (r, cy_to_py (CyLCG.set_x g (after default_next (demand k) (CyLCG.x g)))).
Proof.
  intros Hg Hk.
  assert (Hm : PyLCG.m (cy_to_py g) <> 0).
  { destruct Hg as (_ & _ & Hm & _). simpl. rewrite Hm. done. }
  assert (Hnext : py_next (cy_to_py g) = default_next).
  { destruct Hg as (Ha & Hc & Hm' & _). unfold py_next, default_next. simpl.
    by rewrite Ha, Hc, Hm'. }
  assert (Hlong : forall y, in_range m_default y -> in_long y).
  { intros y. unfold in_range, in_long, m_default, LONG_MIN, LONG_MAX. lia. }
  assert (Hx : in_long (PyLCG.x (cy_to_py g))).
  { apply Hlong. apply Hg. }
  destruct k as [|[n|]]; unfold invoke.
  - rewrite cy_advance_default, py_advance_Ok by done. rewrite Hnext.
    eexists; split; reflexivity.
  - rewrite cy_randint_default by done.
    unfold PyLCG.randint. rewrite py_comprehension_Ok by done. rewrite Hnext.
    rewrite bind_Ok, np_asarray_in_long.
    + eexists; split; reflexivity.
    + apply orbit_Forall; [apply Hx |]. intros y. apply Hlong, default_next_in_range.
  - unfold CyLCG.randint, PyLCG.randint.
    rewrite cy_advance_default, py_advance_Ok by done. rewrite Hnext.
    eexists; split; reflexivity.
Qed.

Lemma cy_run_default junk ks g :
  cy_default g ->
  Forall size_ok ks ->
  exists rs g',
    cy_run junk ks g = Ok (rs, g')
    /\ py_run ks (cy_to_py g) = Ok (rs, cy_to_py g')
    /\ cy_default g'.
Proof.
  intros Hg Hks. revert g Hg.
  induction Hks as [|k ks Hk Hks IH]; intros g Hg.
  - exists [], g. repeat split; apply Hg.
  - destruct (cy_invoke_default junk k g Hg Hk) as (r & Hcy & Hpy).
    destruct (IH _ (cy_default_after g (demand k) Hg)) as (rs & g' & Hcys & Hpys & Hg').
    exists (r :: rs), g'. unfold cy_run, py_run in *. simpl.
    rewrite Hcy, Hpy, !bind_Ok, Hcys, Hpys. done.
Qed.

(** ** The two classes side by side *)

(** C7, as stated, fails: after [PyLCG()] and [CyLCG()], [randint(size=-1)]
    returns an empty array from the first (an empty [range]) and raises
    [ValueError] from the second ([np.empty] refuses the dimension). *)
Lemma py_cy_differ_on_negative_size :
  ~ (forall junk ks gp gc,
        PyLCG.__init__ a_default c_default m_default seed_default = Ok gp ->
        CyLCG.__cinit__ a_default c_default m_default seed_default = Ok gc ->
        observe (py_run ks gp) = observe (cy_run junk ks gc)).
Proof.
  intros H.
  specialize (H 0 [Randint (Some (-1))]
                (PyLCG.Build a_default c_default m_default 0)
                (CyLCG.Build a_default c_default m_default 0)
                eq_refl eq_refl).
  vm_compute in H. discriminate H.
Qed.

(** A size above [INT_MAX] that numpy accepts does not fit the loop bound
    [cdef int n]. *)
Lemma cy_randint_too_large junk g n :
  INT_MAX < n -> 8 * n <= LONG_MAX ->
  CyLCG.randint junk g (Some n) = Raise OverflowError.
Proof.
  intros Hn Hfit. unfold CyLCG.randint.
  rewrite np_empty_Ok by (unfold INT_MAX in Hn; lia). rewrite bind_Ok.
  by rewrite as_int_Raise.
Qed.

(** So do the classes differ on [randint(size=2**31)]: one goes on, the other
    raises. *)
Lemma py_cy_differ_on_large_size junk :
  observe (py_run [Randint (Some (2 ^ 31))]
             (PyLCG.Build a_default c_default m_default seed_default))
  <> observe (cy_run junk [Randint (Some (2 ^ 31))]
                (CyLCG.Build a_default c_default m_default seed_default)).
Proof.
  destruct (py_run_Ok [Randint (Some (2 ^ 31))]
              (PyLCG.Build a_default c_default m_default seed_default))
    as (rs & Hrun & _); [done |].
  rewrite Hrun. unfold cy_run. cbn [run invoke].
  rewrite cy_randint_too_large by (unfold INT_MAX, LONG_MAX; lia).
  discriminate.
Qed.

(** C7, amended: with the default parameters and seed 0, for every sequence
    of [_advance()]/[randint()] calls whose sizes are omitted or lie between
    0 and 2**31 - 1, both classes complete the run and hand back the same
    values call by call, ending with the same four attributes. *)
Theorem py_cy_agree_on_defaults junk ks :
  Forall size_ok ks ->
  exists gp gc rs gp' gc',
    PyLCG.__init__ a_default c_default m_default seed_default = Ok gp
    /\ CyLCG.__cinit__ a_default c_default m_default seed_default = Ok gc
    /\ py_run ks gp = Ok (rs, gp')
    /\ cy_run junk ks gc = Ok (rs, gc')
    /\ gp' = cy_to_py gc'.
Proof.
  intros Hks.
  set (gc := CyLCG.Build a_default c_default m_default 0).
  assert (Hgc : cy_default gc) by (repeat split; done).
  destruct (cy_run_default junk ks gc Hgc Hks) as (rs & gc' & Hcy & Hpy & _).
  exists (cy_to_py gc), gc, rs, (cy_to_py gc'), gc'.
  repeat split; done.
Qed.

Lemma py_cy_agree_on_defaults_witness :
  exists gp gc rs gp' gc',
    PyLCG.__init__ a_default c_default m_default seed_default = Ok gp
    /\ CyLCG.__cinit__ a_default c_default m_default seed_default = Ok gc
    /\ py_run [Advance; Randint (Some 3); Randint None] gp = Ok (rs, gp')
    /\ cy_run 7 [Advance; Randint (Some 3); Randint None] gc = Ok (rs, gc')
    /\ gp' = cy_to_py gc'.
Proof.
  apply (py_cy_agree_on_defaults 7 [Advance; Randint (Some 3); Randint None]).
  repeat constructor; unfold INT_MAX; lia.
Defined.

(** C10: the classes differ on a valid construction with a negative seed.
    With the default parameters and seed -1000, [a*x + c] is negative at the
    first step: Python's [%] brings it into [[0, m)], C's remainder leaves it
    negative, and the second numbers returned differ. *)
Theorem py_cy_differ_on_negative_seed :
  exists seed gp gc,
    seed < 0
    /\ 0 < m_default
    /\ PyLCG.__init__ a_default c_default m_default seed = Ok gp
    /\ CyLCG.__cinit__ a_default c_default m_default seed = Ok gc
    /\ forall junk,
         exists rp gp' rc gc',
           py_run [Randint (Some 2)] gp = Ok (rp, gp')
           /\ cy_run junk [Randint (Some 2)] gc = Ok (rc, gc')
           /\ outputs rp = [-1000; 3644346519]
           /\ outputs rc = [-1000; -650620777]
           /\ outputs rp <> outputs rc
           /\ Forall (in_range m_default) (tail (outputs rp))
           /\ ~ Forall (in_range m_default) (tail (outputs rc)).
Proof.
  exists (-1000),
         (PyLCG.Build a_default c_default m_default (-1000)),
         (CyLCG.Build a_default c_default m_default (-1000)).
  split; [lia |]. split; [reflexivity |].
  split; [reflexivity |]. split; [reflexivity |].
  intros junk.
  eexists _, _, _, _.
  split; [vm_compute; reflexivity |]. split; [vm_compute; reflexivity |].
  split; [reflexivity |]. split; [reflexivity |].
  split; [discriminate |]. split.
  - constructor; [| constructor].
    unfold in_range, m_default. lia.
  - intros Hall. apply Forall_cons in Hall as [Hv _].
    unfold in_range in Hv. lia.
Qed.


(** ** Several generators at once *)

Lemma py_new_inv a c m seed h l h' :
  py_new a c m seed h = Ok (l, h') ->
  0 < m /\ l = fresh (dom h) /\ h' = <[l := PyLCG.Build a c m seed]> h.
Proof.
  unfold py_new. destruct (PyLCG.__init__ a c m seed) as [g|e] eqn:Hinit; [| done].
  apply py_init_inv in Hinit as [-> Hm]. simpl. intros [= <- <-]. done.
Qed.

(** A script over live objects runs to its end, and what it records for an
    object is what the calls made on that object return when made alone. *)
Lemma py_script_on p h :
  heap_ok h ->
  Forall (fun s => s.1 ∈ dom h) p ->
  exists rs h',
    py_script p h = Ok (rs, h')
    /\ forall l g, h !! l = Some g ->
         exists g', py_run (on l p) g = Ok (on l rs, g') /\ h' !! l = Some g'.
Proof.
  revert h.
  induction p as [|[l0 k] p IH]; intros h Hok Hdom.
  - exists [], h. split; [done |]. intros l g Hg. by exists g.
  - apply Forall_cons in Hdom as [Hl0 Hdom]. simpl in Hl0.
    apply elem_of_dom in Hl0 as [g0 Hg0].
    assert (Hm0 : PyLCG.m g0 <> 0).
    { specialize (Hok l0 g0 Hg0). simpl in Hok. lia. }
    destruct (py_invoke_Ok k g0 Hm0) as (r & Hr & _).
    set (g0' := PyLCG.set_x g0 (after (py_next g0) (demand k) (PyLCG.x g0))) in *.
    assert (Hdom1 : dom (<[l0 := g0']> h) = dom h).
    { apply dom_insert_lookup_L. by exists g0. }
    destruct (IH (<[l0 := g0']> h)) as (rs & h' & Hrs & Hon).
    { apply map_Forall_insert_2; [| done]. exact (Hok l0 g0 Hg0). }
    { by rewrite Hdom1. }
    exists ((l0, r) :: rs), h'. split.
    + simpl. unfold py_call. rewrite Hg0, Hr, !bind_Ok. by rewrite Hrs.
    + intros l g Hg. simpl. destruct (decide (l0 = l)) as [->|Hne].
      * assert (g = g0) as -> by congruence.
        destruct (Hon l g0') as (g' & Hrun & Hlook); [apply lookup_insert_eq |].
        exists g'. split; [| done].
        unfold py_run in *. simpl. by rewrite Hr, bind_Ok, Hrun.
      * apply Hon. by rewrite lookup_insert_ne.
Qed.

(** Construction and calls are functions of their arguments: nothing outside
    the object is read. *)
Remark py_run_deterministic a c m seed g1 g2 ks :
  PyLCG.__init__ a c m seed = Ok g1 ->
  PyLCG.__init__ a c m seed = Ok g2 ->
  py_run ks g1 = py_run ks g2.
Proof. intros H1 H2. congruence. Qed.

(** C6: two generators built with the same [(a, c, m, seed)] return the same
    values when the same calls are made on each, however those calls are
    interleaved with one another and with calls on other generators; the
    values are those of the calls made on a single generator alone. *)
Theorem py_same_parameters_same_outputs a c m seed h l1 h1 l2 h2 p :
  heap_ok h ->
  py_new a c m seed h = Ok (l1, h1) ->
  py_new a c m seed h1 = Ok (l2, h2) ->
  Forall (fun s => s.1 ∈ dom h2) p ->
  on l1 p = on l2 p ->
  exists rs h',
    py_script p h2 = Ok (rs, h')
    /\ l1 <> l2
    /\ on l1 rs = on l2 rs
    /\ exists g g',
         PyLCG.__init__ a c m seed = Ok g
         /\ py_run (on l1 p) g = Ok (on l1 rs, g').
Proof.
  intros Hok Hnew1 Hnew2 Hdom Hsame.
  apply py_new_inv in Hnew1 as (Hm & Hl1 & Hh1).
  apply py_new_inv in Hnew2 as (_ & Hl2 & Hh2).
  set (g := PyLCG.Build a c m seed) in *.
  assert (Hne : l1 <> l2).
  { intros <-. apply (is_fresh (dom h1)). rewrite <- Hl2.
    rewrite Hh1. apply elem_of_dom. exists g. apply lookup_insert_eq. }
  assert (Hg1 : h2 !! l1 = Some g).
  { rewrite Hh2, lookup_insert_ne by done. rewrite Hh1. apply lookup_insert_eq. }
  assert (Hg2 : h2 !! l2 = Some g).
  { rewrite Hh2. apply lookup_insert_eq. }
  assert (Hok2 : heap_ok h2).
  { rewrite Hh2, Hh1. unfold heap_ok.
    apply map_Forall_insert_2; [done |]. apply map_Forall_insert_2; done. }
  destruct (py_script_on p h2 Hok2 Hdom) as (rs & h' & Hrun & Hon).
  destruct (Hon l1 g Hg1) as (g1' & Hrun1 & _).
  destruct (Hon l2 g Hg2) as (g2' & Hrun2 & _).
  exists rs, h'. split; [done |]. split; [done |]. split.
  - rewrite Hsame in Hrun1. rewrite Hrun1 in Hrun2. by injection Hrun2.
  - exists g, g1'. split; [by apply py_init_Ok | done].
Qed.

Lemma py_same_parameters_same_outputs_witness :
  exists rs h',
    py_script [(1%positive, Advance); (2%positive, Advance);
               (2%positive, Randint (Some 2)); (1%positive, Randint (Some 2));
               (1%positive, Randint None); (2%positive, Randint None)]
              (<[2%positive := PyLCG.Build 5 3 16 7]>
                 (<[1%positive := PyLCG.Build 5 3 16 7]> ∅))
    = Ok (rs, h')
    /\ 1%positive <> 2%positive
    /\ on 1%positive rs = on 2%positive rs.
Proof.
  destruct (py_same_parameters_same_outputs 5 3 16 7 ∅
              1%positive (<[1%positive := PyLCG.Build 5 3 16 7]> ∅)
              2%positive (<[2%positive := PyLCG.Build 5 3 16 7]>
                            (<[1%positive := PyLCG.Build 5 3 16 7]> ∅))
              [(1%positive, Advance); (2%positive, Advance);
               (2%positive, Randint (Some 2)); (1%positive, Randint (Some 2));
               (1%positive, Randint None); (2%positive, Randint None)])
    as (rs & h' & Hrun & Hne & Hsame & _).
  - apply map_Forall_empty.
  - vm_compute. reflexivity.
  - vm_compute. reflexivity.
  - repeat constructor; simpl; rewrite !dom_insert_L; set_solver.
  - vm_compute. reflexivity.
  - exists rs, h'. done.
Defined.


(** ** The Cython class on its own *)

Lemma as_long_Ok z : in_long z -> as_long z = Ok z.
Proof.
  unfold in_long, as_long. intros [Hlo Hhi].
  destruct (Z.leb_spec LONG_MIN z); [| lia].
  destruct (Z.leb_spec z LONG_MAX); [reflexivity | lia].
Qed.

Lemma as_long_Raise z : ~ in_long z -> as_long z = Raise OverflowError.
Proof.
  unfold in_long, as_long. intros Hz.
  destruct (Z.leb_spec LONG_MIN z); [| reflexivity].
  destruct (Z.leb_spec z LONG_MAX); [lia | reflexivity].
Qed.

Lemma in_long_dec z : in_long z \/ ~ in_long z.
Proof. unfold in_long. lia. Qed.

Lemma cy_cinit_inv a c m seed g :
  CyLCG.__cinit__ a c m seed = Ok g ->
  g = CyLCG.Build a c m seed
  /\ in_long a /\ in_long c /\ in_long m /\ in_long seed /\ 0 < m.
Proof.
  unfold CyLCG.__cinit__.
  destruct (in_long_dec a) as [Ha|Ha];
    [rewrite (as_long_Ok a Ha) | rewrite (as_long_Raise a Ha); done].
  destruct (in_long_dec c) as [Hc|Hc];
    [rewrite (as_long_Ok c Hc) | rewrite (as_long_Raise c Hc); done].
  destruct (in_long_dec m) as [Hm|Hm];
    [rewrite (as_long_Ok m Hm) | rewrite (as_long_Raise m Hm); done].
  destruct (in_long_dec seed) as [Hs|Hs];
    [rewrite (as_long_Ok seed Hs) | rewrite (as_long_Raise seed Hs); done].
  rewrite !bind_Ok. destruct (Z.leb_spec m 0) as [Hle|Hgt]; [done |].
  intros [= <-]. done.
Qed.

(** X1: [CyLCG(a, c, m, seed)] returns the generator holding the four numbers
    when all of them fit a [long] and [m > 0]; it raises the [ValueError]
    when all fit and [m <= 0]; it raises [OverflowError] as soon as one does
    not fit, whatever [m] is. *)
Theorem cy_cinit_outcome a c m seed :
  (in_long a /\ in_long c /\ in_long m /\ in_long seed ->
   0 < m ->
   CyLCG.__cinit__ a c m seed = Ok (CyLCG.Build a c m seed))
  /\ (in_long a /\ in_long c /\ in_long m /\ in_long seed ->
      m <= 0 ->
      CyLCG.__cinit__ a c m seed = Raise (ValueError (m_message m)))
  /\ (~ (in_long a /\ in_long c /\ in_long m /\ in_long seed) ->
      CyLCG.__cinit__ a c m seed = Raise OverflowError).
Proof.
  unfold CyLCG.__cinit__. split; [| split].
  - intros (Ha & Hc & Hm & Hs) Hpos.
    rewrite !as_long_Ok, !bind_Ok by done.
    destruct (Z.leb_spec m 0); [lia | reflexivity].
  - intros (Ha & Hc & Hm & Hs) Hle.
    rewrite !as_long_Ok, !bind_Ok by done.
    destruct (Z.leb_spec m 0); [reflexivity | lia].
  - intros Hnot.
    destruct (in_long_dec a) as [Ha|Ha];
      [rewrite (as_long_Ok a Ha), bind_Ok | by rewrite (as_long_Raise a Ha)].
    destruct (in_long_dec c) as [Hc|Hc];
      [rewrite (as_long_Ok c Hc), bind_Ok | by rewrite (as_long_Raise c Hc)].
    destruct (in_long_dec m) as [Hm|Hm];
      [rewrite (as_long_Ok m Hm), bind_Ok | by rewrite (as_long_Raise m Hm)].
    destruct (in_long_dec seed) as [Hs|Hs];
      [| by rewrite (as_long_Raise seed Hs)].
    tauto.
Qed.

Lemma cy_cinit_outcome_witness :
  CyLCG.__cinit__ (-3) 5 7 (-2) = Ok (CyLCG.Build (-3) 5 7 (-2))
  /\ CyLCG.__cinit__ 3 5 (-7) 2 = Raise (ValueError "m must be > 0, given -7")
  /\ CyLCG.__cinit__ (2 ^ 63) 5 0 2 = Raise OverflowError.
Proof.
  split; [| split].
  - apply (proj1 (cy_cinit_outcome (-3) 5 7 (-2))).
    + unfold in_long, LONG_MIN, LONG_MAX. lia.
    + lia.
  - apply (proj1 (proj2 (cy_cinit_outcome 3 5 (-7) 2))).
    + unfold in_long, LONG_MIN, LONG_MAX. lia.
    + lia.
  - apply (proj2 (proj2 (cy_cinit_outcome (2 ^ 63) 5 0 2))).
    unfold in_long, LONG_MIN, LONG_MAX. lia.
Defined.

(** With a positive modulus the remainder is defined, whatever the other
    numbers. *)
Lemma cy_advance_Ok g :
  0 < CyLCG.m g ->
  CyLCG._advance g = Ok (CyLCG.x g, CyLCG.set_x g (cy_step g (CyLCG.x g))).
Proof.
  intros Hm. unfold CyLCG._advance, c_rem, cy_step.
  destruct (Z.eqb_spec (CyLCG.m g) 0) as [E|_]; [lia |].
  destruct (Z.eqb_spec (CyLCG.m g) (-1)) as [E|_]; [lia |].
  by rewrite andb_false_r.
Qed.

Lemma cy_fill_Ok k i (buf : list Z) g :
  0 < CyLCG.m g ->
  length buf = (i + k)%nat ->
  CyLCG.fill k i buf g
  = Ok (take i buf ++ orbit (cy_step g) k (CyLCG.x g),
        CyLCG.set_x g (after (cy_step g) k (CyLCG.x g))).
Proof.
  revert i buf g.
  induction k as [|k IH]; intros i buf g Hm Hlen; simpl.
  - rewrite take_ge by lia. by rewrite app_nil_r, cy_set_x_same.
  - rewrite cy_advance_Ok by done. rewrite bind_Ok.
    rewrite IH.
    + rewrite (take_S_r _ _ (CyLCG.x g)).
      * rewrite take_insert_ge by lia. by rewrite <- app_assoc.
      * apply list_lookup_insert_eq. lia.
    + done.
    + rewrite length_insert. lia.
Qed.

Lemma cy_randint_Ok junk g n :
  0 < CyLCG.m g ->
  0 <= n <= INT_MAX ->
  CyLCG.randint junk g (Some n)
  = Ok (RArray (orbit (cy_step g) (Z.to_nat n) (CyLCG.x g)),
        CyLCG.set_x g (after (cy_step g) (Z.to_nat n) (CyLCG.x g))).
Proof.
  intros Hg Hn. unfold CyLCG.randint.
  rewrite np_empty_Ok by (unfold INT_MAX, LONG_MAX in *; lia). rewrite bind_Ok.
  rewrite as_int_Ok by (unfold INT_MIN; lia). rewrite bind_Ok.
  rewrite cy_fill_Ok; [reflexivity | done |].
  by rewrite length_replicate.
Qed.

(** A size that does not fit stops the call before a number is generated:
    numpy refuses the dimension, or the size does not convert to an [int]. *)
Lemma cy_randint_bad_size junk g n :
  ~ 0 <= n <= INT_MAX ->
  CyLCG.randint junk g (Some n) = Raise OverflowError
  \/ exists msg, CyLCG.randint junk g (Some n) = Raise (ValueError msg).
Proof.
  intros Hn. unfold CyLCG.randint.
  destruct (Z.lt_ge_cases n 0) as [Hneg|Hpos];
    [| destruct (Z.le_gt_cases (8 * n) LONG_MAX) as [Hfit|Hbig]].
  - right. destruct (np_empty_Raise junk n) as [msg ->]; eauto.
  - left. rewrite np_empty_Ok by done. rewrite bind_Ok.
    by rewrite as_int_Raise by lia.
  - right. destruct (np_empty_Raise junk n) as [msg ->]; eauto.
Qed.

Lemma cy_invoke_Ok junk k g :
  0 < CyLCG.m g ->
  size_ok k ->
  invoke CyLCG._advance (CyLCG.randint junk) k g
  = Ok (reply RArray (cy_step g) k (CyLCG.x g),
        CyLCG.set_x g (after (cy_step g) (demand k) (CyLCG.x g))).
Proof.
  intros Hm Hk. destruct k as [|[n|]]; unfold invoke.
  - by rewrite cy_advance_Ok.
  - by rewrite cy_randint_Ok.
  - unfold CyLCG.randint. by rewrite cy_advance_Ok.
Qed.

Lemma cy_run_Ok junk ks g :
  0 < CyLCG.m g ->
  Forall size_ok ks ->
  cy_run junk ks g
  = Ok (replies RArray (cy_step g) ks (CyLCG.x g),
        CyLCG.set_x g (after (cy_step g) (total_demand ks) (CyLCG.x g))).
Proof.
  intros Hm Hks. revert g Hm.
  induction Hks as [|k ks Hk Hks IH]; intros g Hm; unfold cy_run in *.
  - simpl. by rewrite cy_set_x_same.
  - cbn [run]. rewrite cy_invoke_Ok by done. rewrite bind_Ok.
    rewrite IH by done. simpl. by rewrite after_add.
Qed.

Lemma size_ok_dec k : size_ok k \/ ~ size_ok k.
Proof. destruct k as [|[n|]]; simpl; [tauto | lia | tauto]. Qed.


Lemma cy_invoke_bad_size junk k g :
  ~ size_ok k ->
  exists e,
    invoke CyLCG._advance (CyLCG.randint junk) k g = Raise e
    /\ (e = OverflowError \/ exists msg, e = ValueError msg).
Proof.
  destruct k as [|[n|]]; simpl size_ok; [tauto | | tauto].
  intros Hn. unfold invoke.
  destruct (cy_randint_bad_size junk g n Hn) as [E|[msg E]]; rewrite E; eauto.
Qed.




Lemma cy_step_bound g y :
  0 < CyLCG.m g -> - CyLCG.m g < cy_step g y < CyLCG.m g.
Proof.
  intros Hm. unfold cy_step.
  pose proof (Z.rem_bound_abs
                (long_add (long_mul (CyLCG.a g) y) (CyLCG.c g)) (CyLCG.m g)).
  lia.
Qed.

(** X3: on a generator built by [CyLCG(a, c, m, seed)], a run with sizes
    that fit leaves [a], [c] and [m] as they were; the first value returned
    is the seed and every later one lies strictly between [-m] and [m]; the
    state and all values returned fit a [long]. *)
Theorem cy_outputs_bounded a c m seed g junk ks :
  CyLCG.__cinit__ a c m seed = Ok g ->
  Forall size_ok ks ->
  exists rs g',
    cy_run junk ks g = Ok (rs, g')
    /\ CyLCG.a g' = a /\ CyLCG.c g' = c /\ CyLCG.m g' = m
    /\ in_long (CyLCG.x g')
    /\ Forall in_long (outputs rs)
    /\ (forall v, head (outputs rs) = Some v -> v = seed)
    /\ Forall (fun v => - m < v < m) (tail (outputs rs)).
Proof.
  intros Hinit Hks.
  apply cy_cinit_inv in Hinit as (-> & _ & _ & Hlm & Hls & Hm).
  set (g := CyLCG.Build a c m seed).
  assert (Hstep : forall y, in_long (cy_step g y)).
  { intros y. pose proof (cy_step_bound g y Hm) as Hb. simpl in Hb.
    unfold in_long, LONG_MIN, LONG_MAX in *. lia. }
  eexists _, _. split; [by apply cy_run_Ok |].
  rewrite outputs_replies. simpl.
  split; [done |]. split; [done |]. split; [done |]. split; [| split; [| split]].
  - by apply after_inv.
  - by apply orbit_Forall.
  - intros v Hv. by apply orbit_head in Hv.
  - destruct (total_demand ks) as [|k]; simpl; [constructor |].
    apply orbit_Forall; intros; apply (cy_step_bound g); done.
Qed.

Lemma cy_outputs_bounded_witness :
  exists rs g',
    cy_run 0 [Advance; Randint (Some 3)] (CyLCG.Build (-3) 5 7 (-2))
    = Ok (rs, g')
    /\ CyLCG.a g' = -3 /\ CyLCG.c g' = 5 /\ CyLCG.m g' = 7
    /\ in_long (CyLCG.x g')
    /\ Forall in_long (outputs rs)
    /\ (forall v, head (outputs rs) = Some v -> v = -2)
    /\ Forall (fun v => - 7 < v < 7) (tail (outputs rs)).
Proof.
  apply (cy_outputs_bounded (-3) 5 7 (-2) (CyLCG.Build (-3) 5 7 (-2)) 0
           [Advance; Randint (Some 3)]).
  - reflexivity.
  - repeat constructor; unfold INT_MAX; lia.
Defined.

(** The loop reads no cell above the ones it has written. *)
Lemma cy_fill_ignores_rest k i (buf1 buf2 : list Z) g :
  length buf1 = (i + k)%nat ->
  length buf2 = (i + k)%nat ->
  take i buf1 = take i buf2 ->
  CyLCG.fill k i buf1 g = CyLCG.fill k i buf2 g.
Proof.
  revert i buf1 buf2 g.
  induction k as [|k IH]; intros i buf1 buf2 g Hl1 Hl2 Htake; simpl.
  - rewrite take_ge in Htake by lia. rewrite take_ge in Htake by lia.
    by rewrite Htake.
  - destruct (CyLCG._advance g) as [[r g1]|e]; [| reflexivity].
    rewrite !bind_Ok. apply IH.
    + rewrite length_insert. lia.
    + rewrite length_insert. lia.
    + rewrite (take_S_r (<[i:=r]> buf1) i r) by (apply list_lookup_insert_eq; lia).
      rewrite (take_S_r (<[i:=r]> buf2) i r) by (apply list_lookup_insert_eq; lia).
      rewrite !take_insert_ge by lia. by rewrite Htake.
Qed.

(** X4: what [CyLCG.randint] returns, value or exception, does not depend on
    what the memory handed out by [np.empty] held: every cell of the array
    is written before the array is returned. *)
Theorem cy_randint_ignores_junk junk1 junk2 g size :
  CyLCG.randint junk1 g size = CyLCG.randint junk2 g size.
Proof.
  destruct size as [n|]; [| reflexivity].
  unfold CyLCG.randint, np_empty.
  destruct ((n <? LONG_MIN) || (LONG_MAX <? n)); [reflexivity |].
  destruct (Z.ltb_spec n 0) as [Hneg|Hpos]; [reflexivity |].
  destruct (LONG_MAX <? 8 * n); [reflexivity |].
  rewrite !bind_Ok. unfold as_int.
  destruct ((INT_MIN <=? n) && (n <=? INT_MAX)); [| reflexivity].
  rewrite !bind_Ok.
  rewrite (cy_fill_ignores_rest (Z.to_nat n) 0
             (replicate (Z.to_nat n) junk1) (replicate (Z.to_nat n) junk2));
    [reflexivity | | | reflexivity]; by rewrite length_replicate.
Qed.

(** X5: on a [CyLCG] with a positive modulus, [randint(size=N)] with
    [0 <= N <= 2**31 - 1] returns exactly [N] values, the ones that [N] calls
    of [randint()] return one by one from the same state, in the same order,
    and ends in the same state. *)
Theorem cy_batch_is_repeated_single junk g N :
  0 < CyLCG.m g ->
  0 <= N <= INT_MAX ->
  exists vs g',
    CyLCG.randint junk g (Some N) = Ok (RArray vs, g')
    /\ Z.of_nat (length vs) = N
    /\ cy_run junk (replicate (Z.to_nat N) (Randint None)) g
       = Ok (map RInt vs, g').
Proof.
  intros Hm HN. eexists _, _.
  split; [by apply cy_randint_Ok |]. split.
  - rewrite orbit_length. lia.
  - rewrite cy_run_Ok; [| done |].
    + by rewrite replies_singles, total_demand_singles.
    + apply Forall_replicate. simpl. done.
Qed.

Lemma cy_batch_is_repeated_single_witness :
  exists vs g',
    CyLCG.randint 9 (CyLCG.Build (-3) 5 7 (-2)) (Some 4) = Ok (RArray vs, g')
    /\ Z.of_nat (length vs) = 4
    /\ cy_run 9 (replicate (Z.to_nat 4) (Randint None)) (CyLCG.Build (-3) 5 7 (-2))
       = Ok (map RInt vs, g').
Proof.
  apply (cy_batch_is_repeated_single 9 (CyLCG.Build (-3) 5 7 (-2)) 4).
  - simpl. lia.
  - unfold INT_MAX. lia.
Defined.

(** ** The Python stream *)

(** The values of a run are the numbers generated when no call asks for an
    array, and when every number fits an [int64]. *)
Lemma py_run_plain ks g :
  PyLCG.m g <> 0 ->
  Forall unsized ks \/ py_exact g ->
  py_run ks g
  = Ok (replies RArray (py_next g) ks (PyLCG.x g),
        PyLCG.set_x g (after (py_next g) (total_demand ks) (PyLCG.x g))).
Proof.
  intros Hm [Hks|Hg].
  - rewrite py_run_replies by done.
    by rewrite (replies_unsized _ np_asarray RArray).
  - by apply py_run_exact.
Qed.

Lemma py_exact_after g k :
  py_exact g -> py_exact (PyLCG.set_x g (after (py_next g) k (PyLCG.x g))).
Proof.
  intros [Hm Hx]. split; [done |]. simpl.
  apply after_inv; [done |]. intros y. by apply py_next_in_long.
Qed.

(** X6: on a [PyLCG] with [0 < m <= 2**63] whose [x] fits an [int64] (so
    that numpy keeps the integers of every array), a batch can be split:
    [randint(size=j)] followed by [randint(size=k)] returns, put end to end,
    the values of [randint(size=j+k)], and leaves the generator in the same
    state. *)
Theorem py_batch_splits g j k :
  py_exact g ->
  0 <= j ->
  0 <= k ->
  exists v1 g1 v2 g2,
    PyLCG.randint g (Some j) = Ok (RArray v1, g1)
    /\ PyLCG.randint g1 (Some k) = Ok (RArray v2, g2)
    /\ PyLCG.randint g (Some (j + k)) = Ok (RArray (v1 ++ v2), g2).
Proof.
  intros Hg Hj Hk. eexists _, _, _, _.
  split; [by apply py_randint_exact |].
  split; [by apply py_randint_exact, py_exact_after |].
  rewrite py_randint_exact by done.
  rewrite Z2Nat.inj_add by done.
  rewrite orbit_add, after_add. reflexivity.
Qed.

Lemma py_batch_splits_witness :
  exists v1 g1 v2 g2,
    PyLCG.randint (PyLCG.Build 5 3 16 7) (Some 2) = Ok (RArray v1, g1)
    /\ PyLCG.randint g1 (Some 3) = Ok (RArray v2, g2)
    /\ PyLCG.randint (PyLCG.Build 5 3 16 7) (Some (2 + 3))
       = Ok (RArray (v1 ++ v2), g2).
Proof.
  apply (py_batch_splits (PyLCG.Build 5 3 16 7) 2 3).
  - unfold py_exact, in_long, LONG_MIN, LONG_MAX. simpl. lia.
  - lia.
  - lia.
Defined.

(** X7: when no call asks for an array, or when [0 < m <= 2**63] and [x]
    fits an [int64] (so that numpy keeps the integers of every array),
    whatever mix of [_advance()], [randint()] and [randint(size=n)] a client
    makes, the values come out as one stream: each value returned is
    [(a*v + c) mod m] for the value [v] returned just before it, also across
    two calls, and [x] ends as the successor of the last value returned. *)
Theorem py_stream_follows_recurrence g ks :
  PyLCG.m g <> 0 ->
  Forall unsized ks \/ py_exact g ->
  exists rs g',
    py_run ks g = Ok (rs, g')
    /\ (forall i v w,
          outputs rs !! i = Some v ->
          outputs rs !! S i = Some w ->
          w = (PyLCG.a g * v + PyLCG.c g) mod PyLCG.m g)
    /\ (forall v,
          last (outputs rs) = Some v ->
          PyLCG.x g' = (PyLCG.a g * v + PyLCG.c g) mod PyLCG.m g).
Proof.
  intros Hm Hplain. eexists _, _. split; [by apply py_run_plain |].
  rewrite outputs_replies. split.
  - intros i v w Hv Hw. apply (orbit_lookup_S _ _ _ _ _ _ Hv Hw).
  - destruct (total_demand ks) as [|n]; [done |].
    rewrite orbit_last. intros v [= <-]. by rewrite after_S_r.
Qed.

Lemma py_stream_follows_recurrence_witness :
  exists rs g',
    py_run [Randint (Some 2); Advance; Randint None] (PyLCG.Build 5 3 16 7)
    = Ok (rs, g')
    /\ (forall i v w,
          outputs rs !! i = Some v ->
          outputs rs !! S i = Some w ->
          w = (5 * v + 3) mod 16)
    /\ (forall v,
          last (outputs rs) = Some v -> PyLCG.x g' = (5 * v + 3) mod 16).
Proof.
  apply (py_stream_follows_recurrence (PyLCG.Build 5 3 16 7)
           [Randint (Some 2); Advance; Randint None]).
  - simpl. lia.
  - right. unfold py_exact, in_long, LONG_MIN, LONG_MAX. simpl. lia.
Defined.

(** ** Arithmetic of the recurrence *)

Lemma lcg_next_mod a c m y : lcg_next a c m (y mod m) = lcg_next a c m y.
Proof.
  unfold lcg_next. destruct (Z.eq_dec m 0) as [->|Hm].
  - by rewrite !Z.mod_0_r.
  - rewrite <- (Z.add_mod_idemp_l (a * (y mod m))) by done.
    rewrite Z.mul_mod_idemp_r by done.
    by rewrite Z.add_mod_idemp_l.
Qed.

Lemma lcg_next_parity a c m y :
  m <> 0 -> Z.even m = true -> Z.odd a = true -> Z.odd c = true ->
  Z.odd (lcg_next a c m y) = negb (Z.odd y).
Proof.
  intros Hm Hem Ha Hc. unfold lcg_next.
  rewrite Z.mod_eq by done.
  rewrite Z.odd_sub, Z.odd_add, !Z.odd_mul, Ha, Hc.
  rewrite <- (Z.negb_even m), Hem. simpl.
  by destruct (Z.odd y).
Qed.

(** X8: when [m] is even and [a] and [c] are odd, as the default parameters
    are, the values a [PyLCG] returns alternate between even and odd, from
    the first value on and across calls, provided no call asks for an array
    or [m <= 2**63] and the seed fits an [int64] (so that numpy keeps the
    integers of every array). *)
Theorem py_parity_alternates a c m seed ks :
  0 < m ->
  Z.even m = true ->
  Z.odd a = true ->
  Z.odd c = true ->
  Forall unsized ks \/ (m <= 2 ^ 63 /\ in_long seed) ->
  exists g rs g',
    PyLCG.__init__ a c m seed = Ok g
    /\ py_run ks g = Ok (rs, g')
    /\ forall i v w,
         outputs rs !! i = Some v ->
         outputs rs !! S i = Some w ->
         Z.odd w = negb (Z.odd v).
Proof.
  intros Hm Hem Ha Hc Hplain.
  set (g := PyLCG.Build a c m seed).
  assert (Hg : PyLCG.m g <> 0) by (simpl; lia).
  assert (Hplain' : Forall unsized ks \/ py_exact g).
  { destruct Hplain as [Hks|[Hle Hs]]; [by left | right].
    split; [simpl; lia | done]. }
  eexists g, _, _. split; [by apply py_init_Ok |].
  split; [by apply py_run_plain |].
  rewrite outputs_replies. intros i v w Hv Hw.
  rewrite (orbit_lookup_S _ _ _ _ _ _ Hv Hw).
  apply lcg_next_parity; [simpl; lia | done | done | done].
Qed.

Lemma py_parity_alternates_witness :
  exists g rs g',
    PyLCG.__init__ a_default c_default m_default 12345 = Ok g
    /\ py_run [Randint (Some 3); Randint None] g = Ok (rs, g')
    /\ forall i v w,
         outputs rs !! i = Some v ->
         outputs rs !! S i = Some w ->
         Z.odd w = negb (Z.odd v).
Proof.
  apply (py_parity_alternates a_default c_default m_default 12345
           [Randint (Some 3); Randint None]).
  - reflexivity.
  - reflexivity.
  - reflexivity.
  - reflexivity.
  - right. unfold m_default, in_long, LONG_MIN, LONG_MAX. lia.
Defined.

(** X9: only the residue of the seed modulo [m] matters after the first
    value: two [PyLCG]s built with the same [a], [c], [m > 0] and seeds
    congruent modulo [m] are in the same state once a value has been
    generated; and they return the same values from the second one on,
    provided no call asks for an array or [m <= 2**63] and both seeds fit an
    [int64] (so that numpy keeps the integers of every array). *)
Theorem py_congruent_seeds a c m seed1 seed2 ks :
  0 < m ->
  seed1 mod m = seed2 mod m ->
  exists g1 g2 rs1 rs2 g1' g2',
    PyLCG.__init__ a c m seed1 = Ok g1
    /\ PyLCG.__init__ a c m seed2 = Ok g2
    /\ py_run ks g1 = Ok (rs1, g1')
    /\ py_run ks g2 = Ok (rs2, g2')
    /\ (total_demand ks <> 0%nat -> g1' = g2')
    /\ (Forall unsized ks \/ (m <= 2 ^ 63 /\ in_long seed1 /\ in_long seed2) ->
        tail (outputs rs1) = tail (outputs rs2)).
Proof.
  intros Hm Hseed.
  set (g1 := PyLCG.Build a c m seed1). set (g2 := PyLCG.Build a c m seed2).
  assert (Hnext : lcg_next a c m seed1 = lcg_next a c m seed2).
  { by rewrite <- (lcg_next_mod a c m seed1), Hseed, lcg_next_mod. }
  eexists g1, g2, _, _, _, _.
  split; [by apply py_init_Ok |]. split; [by apply py_init_Ok |].
  split; [apply py_run_replies; simpl; lia |].
  split; [apply py_run_replies; simpl; lia |].
  split.
  - destruct (total_demand ks) as [|n]; [done |].
    intros _. unfold PyLCG.set_x, py_next. simpl. by rewrite Hnext.
  - intros Hplain.
    assert (replies np_asarray (py_next g1) ks (PyLCG.x g1)
            = replies RArray (py_next g1) ks (PyLCG.x g1)) as ->.
    { destruct Hplain as [Hks|(Hle & Hs1 & Hs2)].
      - by apply replies_unsized.
      - apply py_replies_exact. split; [simpl; lia | done]. }
    assert (replies np_asarray (py_next g2) ks (PyLCG.x g2)
            = replies RArray (py_next g2) ks (PyLCG.x g2)) as ->.
    { destruct Hplain as [Hks|(Hle & Hs1 & Hs2)].
      - by apply replies_unsized.
      - apply py_replies_exact. split; [simpl; lia | done]. }
    rewrite !outputs_replies.
    destruct (total_demand ks) as [|n]; [done |].
    simpl. unfold py_next. simpl. by rewrite Hnext.
Qed.

Lemma py_congruent_seeds_witness :
  exists g1 g2 rs1 rs2 g1' g2',
    PyLCG.__init__ 5 3 16 (-9) = Ok g1
    /\ PyLCG.__init__ 5 3 16 23 = Ok g2
    /\ py_run [Advance; Randint (Some 2)] g1 = Ok (rs1, g1')
    /\ py_run [Advance; Randint (Some 2)] g2 = Ok (rs2, g2')
    /\ (total_demand [Advance; Randint (Some 2)] <> 0%nat -> g1' = g2')
    /\ (Forall unsized [Advance; Randint (Some 2)]
        \/ (16 <= 2 ^ 63 /\ in_long (-9) /\ in_long 23) ->
        tail (outputs rs1) = tail (outputs rs2)).
Proof.
  apply (py_congruent_seeds 5 3 16 (-9) 23 [Advance; Randint (Some 2)]).
  - lia.
  - reflexivity.
Defined.

(** ** The two classes when nothing overflows *)

Lemma cy_step_no_overflow g y :
  0 <= CyLCG.a g -> 0 <= CyLCG.c g -> 0 < CyLCG.m g ->
  0 <= y -> CyLCG.a g * y + CyLCG.c g <= LONG_MAX ->
  cy_step g y = cy_next g y.
Proof.
  intros Ha Hc Hm Hy Hfit.
  assert (Hprod : 0 <= CyLCG.a g * y) by (apply Z.mul_nonneg_nonneg; done).
  unfold cy_step, cy_next, lcg_next, long_mul, long_add.
  rewrite (wrap_long_fits (CyLCG.a g * y)) by (unfold LONG_MIN; lia).
  rewrite wrap_long_fits by (unfold LONG_MIN; lia).
  apply Z.rem_mod_nonneg; lia.
Qed.

Lemma cy_safe_step g y :
  cy_safe g ->
  0 <= y /\ CyLCG.a g * y + CyLCG.c g <= LONG_MAX ->
  0 <= cy_step g y /\ CyLCG.a g * cy_step g y + CyLCG.c g <= LONG_MAX.
Proof.
  intros (Ha & Hc & Hm & _ & _ & Hmax) [Hy Hfit].
  rewrite cy_step_no_overflow by done.
  pose proof (lcg_next_in_range (CyLCG.a g) (CyLCG.c g) (CyLCG.m g) y Hm) as Hr.
  unfold in_range in Hr. fold (cy_next g y) in Hr.
  split; [lia |].
  assert (CyLCG.a g * cy_next g y <= CyLCG.a g * (CyLCG.m g - 1))
    by (apply Z.mul_le_mono_nonneg_l; lia).
  lia.
Qed.

(** X10: the two classes agree whenever the C arithmetic cannot overflow:
    for non-negative [a], [c], seed and a positive [m], all fitting a [long],
    such that [a*seed + c] and [a*(m-1) + c] fit a [long] too, [PyLCG] and
    [CyLCG] built from them return the same values, call by call, for every
    sequence of calls with sizes omitted or between 0 and 2**31 - 1. *)
Theorem py_cy_agree_without_overflow a c m seed junk ks :
  0 <= a <= LONG_MAX ->
  0 <= c ->
  0 < m <= LONG_MAX ->
  0 <= seed <= LONG_MAX ->
  a * seed + c <= LONG_MAX ->
  a * (m - 1) + c <= LONG_MAX ->
  Forall size_ok ks ->
  exists gp gc rs gp' gc',
    PyLCG.__init__ a c m seed = Ok gp
    /\ CyLCG.__cinit__ a c m seed = Ok gc
    /\ py_run ks gp = Ok (rs, gp')
    /\ cy_run junk ks gc = Ok (rs, gc')
    /\ gp' = cy_to_py gc'.
Proof.
  intros Ha Hc Hm Hseed Hfit Hmax Hks.
  assert (Hprod : 0 <= a * seed) by (apply Z.mul_nonneg_nonneg; lia).
  set (gc := CyLCG.Build a c m seed).
  assert (Hsafe : cy_safe gc) by (unfold cy_safe; simpl; lia).
  set (P := fun y => 0 <= y /\ a * y + c <= LONG_MAX).
  assert (Hagree : forall y, P y -> cy_step gc y = py_next (cy_to_py gc) y).
  { intros y [Hy Hfy]. apply cy_step_no_overflow; simpl; lia. }
  assert (Hstable : forall y, P y -> P (cy_step gc y)).
  { intros y Hy. by apply (cy_safe_step gc y Hsafe). }
  assert (Hx : P seed) by (unfold P; lia).
  exists (cy_to_py gc), gc. eexists _, _, _.
  split; [apply py_init_Ok; lia |].
  split.
  { apply (proj1 (cy_cinit_outcome a c m seed));
      [unfold in_long, LONG_MIN, LONG_MAX in *; lia | lia]. }
  split.
  { apply py_run_exact. unfold py_exact, in_long, LONG_MIN, LONG_MAX in *.
    simpl. lia. }
  split.
  { rewrite cy_run_Ok; [| simpl; lia | done].
    change (CyLCG.x gc) with seed. change (PyLCG.x (cy_to_py gc)) with seed.
    by rewrite (replies_agree _ _ P Hagree Hstable RArray ks seed Hx). }
  change (CyLCG.x gc) with seed. change (PyLCG.x (cy_to_py gc)) with seed.
  unfold cy_to_py, PyLCG.set_x, CyLCG.set_x. cbn [CyLCG.a CyLCG.c CyLCG.m CyLCG.x].
  by rewrite (after_agree _ _ P Hagree Hstable (total_demand ks) seed Hx).
Qed.

Lemma py_cy_agree_without_overflow_witness :
  exists gp gc rs gp' gc',
    PyLCG.__init__ 5 3 16 7 = Ok gp
    /\ CyLCG.__cinit__ 5 3 16 7 = Ok gc
    /\ py_run [Randint (Some 3); Advance] gp = Ok (rs, gp')
    /\ cy_run 0 [Randint (Some 3); Advance] gc = Ok (rs, gc')
    /\ gp' = cy_to_py gc'.
Proof.
  apply (py_cy_agree_without_overflow 5 3 16 7 0 [Randint (Some 3); Advance]).
  - unfold LONG_MAX. lia.
  - lia.
  - unfold LONG_MAX. lia.
  - unfold LONG_MAX. lia.
  - unfold LONG_MAX. lia.
  - unfold LONG_MAX. lia.
  - repeat constructor; unfold INT_MAX; lia.
Defined.

(** ** The test cells *)

(** X11: the cell [rng = PyLCG(); nums = rng.randint(size=n) % 100] and the
    same cell on [CyLCG()] compute the same [nums] for every
    [0 <= n <= 2**31 - 1] (the notebook takes 10000): [n] numbers, each from
    0 to 99, as the 100 bins of the plot expect. *)
Theorem cells_agree junk n :
  0 <= n <= INT_MAX ->
  exists nums,
    py_cell n = Ok (RArray nums)
    /\ cy_cell junk n = Ok (RArray nums)
    /\ Z.of_nat (length nums) = n
    /\ Forall (in_range 100) nums.
Proof.
  intros Hn.
  exists (map (fun v => v mod 100) (orbit default_next (Z.to_nat n) 0)).
  split; [| split; [| split]].
  - unfold py_cell. rewrite py_init_Ok by done. rewrite bind_Ok.
    rewrite py_randint_exact; [reflexivity |].
    unfold py_exact, in_long, LONG_MIN, LONG_MAX, m_default, seed_default.
    simpl. lia.
  - unfold cy_cell.
    change (CyLCG.__cinit__ a_default c_default m_default seed_default)
      with (Ok (CyLCG.Build a_default c_default m_default 0)).
    rewrite bind_Ok. rewrite cy_randint_default; [reflexivity | | done].
    unfold cy_default, in_range. simpl. done.
  - rewrite length_map, orbit_length. lia.
  - apply Forall_map, Forall_forall. intros v _.
    unfold in_range. simpl. apply Z.mod_pos_bound. lia.
Qed.

Lemma cells_agree_witness :
  exists nums,
    py_cell 10000 = Ok (RArray nums)
    /\ cy_cell 0 10000 = Ok (RArray nums)
    /\ Z.of_nat (length nums) = 10000
    /\ Forall (in_range 100) nums.
Proof.
  apply (cells_agree 0 10000). unfold INT_MAX. lia.
Defined.

(** ** Attributes of [CyLCGOpen] *)

Lemma as_long_inv z v : as_long z = Ok v -> v = z /\ in_long z.
Proof.
  destruct (in_long_dec z) as [Hz|Hz].
  - rewrite as_long_Ok by done. by intros [= <-].
  - by rewrite as_long_Raise.
Qed.

(** X12: on a [CyLCGOpen], assigning to [x] a value that fits a [long]
    reseeds the generator: [x] reads back as that value, [a], [c] and [m]
    read as before, and with a positive modulus the next [randint()] returns
    it.  A value that does not fit raises [OverflowError]; assigning to [a],
    [c] or [m] raises [AttributeError]. *)
Theorem open_x_assignment junk g v :
  (in_long v ->
   exists g',
     CyLCGOpen.setattr g Fx v = Done g'
     /\ CyLCGOpen.getattr g' Fx = Done v
     /\ CyLCGOpen.getattr g' Fa = CyLCGOpen.getattr g Fa
     /\ CyLCGOpen.getattr g' Fc = CyLCGOpen.getattr g Fc
     /\ CyLCGOpen.getattr g' Fm = CyLCGOpen.getattr g Fm
     /\ (0 < CyLCG.m g ->
         exists g'', CyLCGOpen.randint junk g' None = Ok (RInt v, g'')))
  /\ (~ in_long v -> CyLCGOpen.setattr g Fx v = Thrown OverflowError)
  /\ (forall f, f <> Fx -> CyLCGOpen.setattr g f v = AttributeError).
Proof.
  split; [| split].
  - intros Hv. exists (CyLCG.set_x g v).
    split; [unfold CyLCGOpen.setattr; by rewrite as_long_Ok |].
    repeat (split; [reflexivity |]).
    intros Hm. unfold CyLCGOpen.randint, CyLCG.randint.
    rewrite cy_advance_Ok by done. eexists. reflexivity.
  - intros Hv. unfold CyLCGOpen.setattr. by rewrite as_long_Raise.
  - intros f Hf. by destruct f.
Qed.

Lemma open_x_assignment_witness :
  (exists g',
      CyLCGOpen.setattr (CyLCG.Build a_default c_default m_default 0) Fx 42
      = Done g'
      /\ CyLCGOpen.getattr g' Fx = Done 42
      /\ CyLCGOpen.getattr g' Fa = Done a_default
      /\ CyLCGOpen.getattr g' Fc = Done c_default
      /\ CyLCGOpen.getattr g' Fm = Done m_default
      /\ (0 < m_default ->
          exists g'', CyLCGOpen.randint 0 g' None = Ok (RInt 42, g'')))
  /\ CyLCGOpen.setattr (CyLCG.Build a_default c_default m_default 0) Fx (2 ^ 63)
     = Thrown OverflowError
  /\ CyLCGOpen.setattr (CyLCG.Build a_default c_default m_default 0) Fa (-1)
     = AttributeError.
Proof.
  split; [| split].
  - apply (proj1 (open_x_assignment 0
                    (CyLCG.Build a_default c_default m_default 0) 42)).
    unfold in_long, LONG_MIN, LONG_MAX. lia.
  - apply (proj1 (proj2 (open_x_assignment 0
                           (CyLCG.Build a_default c_default m_default 0)
                           (2 ^ 63)))).
    unfold in_long, LONG_MIN, LONG_MAX. lia.
  - apply (proj2 (proj2 (open_x_assignment 0
                           (CyLCG.Build a_default c_default m_default 0)
                           (-1))) Fa).
    discriminate.
Defined.

Lemma cy_step_in_long g y :
  0 < CyLCG.m g <= LONG_MAX -> in_long (cy_step g y).
Proof.
  intros [Hm Hle]. pose proof (cy_step_bound g y Hm).
  unfold in_long, LONG_MIN, LONG_MAX in *. lia.
Qed.

Lemma open_act_inv junk a c m act g :
  open_inv a c m g ->
  match open_act junk act g with
  | Done (_, g') => open_inv a c m g'
  | AttributeError =>
      (exists f v, act = Set_ f v /\ f <> Fx)
      \/ (exists name, act = Get (Fnew name))
  | Thrown e => e = OverflowError \/ exists msg, e = ValueError msg
  end.
Proof.
  intros (Ha & Hc & Hm & Hpos & Hx).
  destruct act as [f|f v|k]; simpl.
  - destruct f; simpl; try done. right. by eexists.
  - destruct f; simpl; try (left; by eexists _, _).
    destruct (in_long_dec v) as [Hv|Hv].
    + rewrite as_long_Ok by done. done.
    + rewrite as_long_Raise by done. by left.
  - unfold CyLCGOpen._advance, CyLCGOpen.randint.
    destruct (size_ok_dec k) as [Hk|Hk].
    + rewrite cy_invoke_Ok by (done || lia).
      repeat (split; [done |]). simpl.
      apply after_inv; [done |]. intros y. apply cy_step_in_long. lia.
    + destruct (cy_invoke_bad_size junk k g Hk) as (e & E & He).
      by rewrite E.
Qed.

(** X13: making [x] public does not let Python code break a [CyLCGOpen]:
    after [CyLCGOpen(a, c, m, seed)], whatever is read or assigned among
    [a], [c], [m], [x] and names the class does not have, and whatever
    methods are called, in any order, [a], [c] and [m] stay as given and [x]
    fits a [long]; the run stops on an [AttributeError] only at an
    assignment to something else than [x] or at the reading of a name the
    class does not have; and when it stops on another exception, this is a
    Python exception (a value or a size that does not convert, an array that
    numpy refuses), never a fault of the unchecked C remainder, which never
    sees a zero modulus. *)
Theorem open_run_keeps_parameters a c m seed g junk acts :
  CyLCGOpen.__cinit__ a c m seed = Ok g ->
  match open_run junk acts g with
  | Done (ss, g') =>
      length ss = length acts
      /\ CyLCG.a g' = a /\ CyLCG.c g' = c /\ CyLCG.m g' = m
      /\ 0 < CyLCG.m g' /\ in_long (CyLCG.x g')
  | AttributeError =>
      Exists (fun act => (exists f v, act = Set_ f v /\ f <> Fx)
                         \/ (exists name, act = Get (Fnew name))) acts
  | Thrown e => e <> CFault
  end.
Proof.
  intros Hinit.
  apply cy_cinit_inv in Hinit as (-> & _ & _ & Hlm & Hls & Hm).
  assert (Hinv : open_inv a c m (CyLCG.Build a c m seed)).
  { unfold open_inv, in_long in *. simpl. lia. }
  revert Hinv. generalize (CyLCG.Build a c m seed).
  induction acts as [|act acts IH]; intros g Hinv.
  - simpl. destruct Hinv as (Ha & Hc & Hmg & Hpos & Hx).
    repeat (split; [done || lia |]). done.
  - cbn [open_run].
    pose proof (open_act_inv junk a c m act g Hinv) as Hact.
    destruct (open_act junk act g) as [[s g1]| |e].
    + specialize (IH g1 Hact).
      destruct (open_run junk acts g1) as [[ss g2]| |e].
      * destruct IH as (Hlen & IH). split; [simpl; by rewrite Hlen | done].
      * by apply Exists_cons_tl.
      * done.
    + by apply Exists_cons_hd.
    + destruct Hact as [->|[msg ->]]; done.
Qed.

Lemma open_run_keeps_parameters_witness :
  match
    open_run 0 [Get Fx; Set_ Fx 42; Do (Randint (Some 2)); Get Fm]
      (CyLCG.Build a_default c_default m_default 0)
  with
  | Done (ss, g') =>
      length ss = length [Get Fx; Set_ Fx 42; Do (Randint (Some 2)); Get Fm]
      /\ CyLCG.a g' = a_default /\ CyLCG.c g' = c_default
      /\ CyLCG.m g' = m_default
      /\ 0 < CyLCG.m g' /\ in_long (CyLCG.x g')
  | AttributeError =>
      Exists (fun act => (exists f v, act = Set_ f v /\ f <> Fx)
                         \/ (exists name, act = Get (Fnew name)))
        [Get Fx; Set_ Fx 42; Do (Randint (Some 2)); Get Fm]
  | Thrown e => e <> CFault
  end.
Proof.
  apply (open_run_keeps_parameters a_default c_default m_default 0
           (CyLCG.Build a_default c_default m_default 0) 0
           [Get Fx; Set_ Fx 42; Do (Randint (Some 2)); Get Fm]).
  reflexivity.
Defined.

(** A name the class does not have stops the run, as [cyrng.z = 15] does. *)
Example open_new_name :
  open_run 0 [Get Fa; Set_ (Fnew "z") 15]
    (CyLCG.Build a_default c_default m_default 0)
  = AttributeError.
Proof. reflexivity. Qed.

(** ** Reducing the Cython values *)

Lemma rem_mod n m : m <> 0 -> Z.rem n m mod m = n mod m.
Proof.
  intros Hm. rewrite (Z.quot_rem' n m) at 2.
  rewrite Z.add_comm, Z.mul_comm. by rewrite Z.mod_add.
Qed.

(** When [|a|*|y| + |c|] fits a [long], so does every intermediate result
    of the C expression. *)
Lemma cy_step_exact g y :
  0 < CyLCG.m g ->
  Z.abs (CyLCG.a g) * Z.abs y + Z.abs (CyLCG.c g) <= LONG_MAX ->
  cy_step g y = Z.rem (CyLCG.a g * y + CyLCG.c g) (CyLCG.m g).
Proof.
  intros Hm Hfit.
  assert (Hprod : Z.abs (CyLCG.a g * y) = Z.abs (CyLCG.a g) * Z.abs y)
    by apply Z.abs_mul.
  unfold cy_step, long_mul, long_add.
  rewrite (wrap_long_fits (CyLCG.a g * y)) by (unfold LONG_MIN, LONG_MAX in *; lia).
  rewrite wrap_long_fits by (unfold LONG_MIN, LONG_MAX in *; lia).
  reflexivity.
Qed.

Lemma orbit_reduced g k y :
  0 < CyLCG.m g ->
  Z.abs (CyLCG.a g) * (CyLCG.m g - 1) + Z.abs (CyLCG.c g) <= LONG_MAX ->
  Z.abs (CyLCG.a g) * Z.abs y + Z.abs (CyLCG.c g) <= LONG_MAX ->
  orbit (cy_next g) k (y mod CyLCG.m g)
  = map (fun v => v mod CyLCG.m g) (orbit (cy_step g) k y).
Proof.
  intros Hm Hmax. revert y.
  induction k as [|k IH]; intros y Hfit; [done |].
  cbn [orbit map]. f_equal.
  pose proof (cy_step_bound g y Hm) as Hb.
  pose proof (cy_step_exact g y Hm Hfit) as Hex.
  replace (cy_next g (y mod CyLCG.m g)) with (cy_step g y mod CyLCG.m g).
  - apply IH.
    assert (Z.abs (CyLCG.a g) * Z.abs (cy_step g y)
            <= Z.abs (CyLCG.a g) * (CyLCG.m g - 1))
      by (apply Z.mul_le_mono_nonneg_l; lia).
    lia.
  - unfold cy_next. rewrite lcg_next_mod. unfold lcg_next.
    rewrite Hex. apply rem_mod. lia.
Qed.

(** X14: as long as [|a|*|seed| + |c|] and [|a|*(m-1) + |c|] fit a [long],
    the C arithmetic is exact, and the two classes differ by the sign
    convention of [%] only: the values [PyLCG] returns after the first are
    the values [CyLCG] returns after the first, reduced modulo [m]. *)
Theorem cy_outputs_reduce_to_py a c m seed junk ks :
  in_long a ->
  in_long seed ->
  0 < m <= LONG_MAX ->
  Z.abs a * Z.abs seed + Z.abs c <= LONG_MAX ->
  Z.abs a * (m - 1) + Z.abs c <= LONG_MAX ->
  Forall size_ok ks ->
  exists gp gc rp rc gp' gc',
    PyLCG.__init__ a c m seed = Ok gp
    /\ CyLCG.__cinit__ a c m seed = Ok gc
    /\ py_run ks gp = Ok (rp, gp')
    /\ cy_run junk ks gc = Ok (rc, gc')
    /\ tail (outputs rp) = map (fun v => v mod m) (tail (outputs rc)).
Proof.
  intros Ha Hseed Hm Hfit Hmax Hks.
  set (gc := CyLCG.Build a c m seed).
  exists (PyLCG.Build a c m seed), gc. eexists _, _, _, _.
  split; [apply py_init_Ok; lia |].
  split.
  { apply (proj1 (cy_cinit_outcome a c m seed)); [| lia].
    unfold in_long, LONG_MIN, LONG_MAX in *. lia. }
  split.
  { apply py_run_exact. unfold py_exact, in_long, LONG_MIN, LONG_MAX in *.
    simpl. lia. }
  split; [apply cy_run_Ok; [simpl; lia | done] |].
  rewrite !outputs_replies.
  destruct (total_demand ks) as [|k]; [done |].
  change (CyLCG.x gc) with seed.
  change (PyLCG.x (PyLCG.Build a c m seed)) with seed.
  change (py_next (PyLCG.Build a c m seed)) with (cy_next gc).
  cbn [orbit tail].
  pose proof (cy_step_bound gc seed (proj1 Hm)) as Hb.
  pose proof (cy_step_exact gc seed (proj1 Hm) Hfit) as Hex.
  replace (cy_next gc seed) with (cy_step gc seed mod CyLCG.m gc).
  - apply (orbit_reduced gc k (cy_step gc seed)); [apply Hm | done |].
    assert (Z.abs a * Z.abs (cy_step gc seed) <= Z.abs a * (m - 1))
      by (apply Z.mul_le_mono_nonneg_l; simpl in Hb; lia).
    simpl. lia.
  - unfold cy_next, lcg_next. rewrite Hex. apply rem_mod. simpl. lia.
Qed.

Lemma cy_outputs_reduce_to_py_witness :
  exists gp gc rp rc gp' gc',
    PyLCG.__init__ a_default c_default m_default (-1000) = Ok gp
    /\ CyLCG.__cinit__ a_default c_default m_default (-1000) = Ok gc
    /\ py_run [Randint (Some 3); Advance] gp = Ok (rp, gp')
    /\ cy_run 0 [Randint (Some 3); Advance] gc = Ok (rc, gc')
    /\ tail (outputs rp) = map (fun v => v mod m_default) (tail (outputs rc)).
Proof.
  apply (cy_outputs_reduce_to_py a_default c_default m_default (-1000) 0
           [Randint (Some 3); Advance]).
  - unfold in_long, LONG_MIN, LONG_MAX, a_default. lia.
  - unfold in_long, LONG_MIN, LONG_MAX. lia.
  - unfold LONG_MAX, m_default. lia.
  - unfold LONG_MAX, a_default, c_default. lia.
  - unfold LONG_MAX, a_default, c_default, m_default. lia.
  - repeat constructor; unfold INT_MAX; lia.
Defined.
